(** * comment_checker.py: the comment authenticity analyzer

    A shallow embedding of [src/comment_checker.py]: the scoring engine
    [analyze_comment], the CSV normalizer [read_comments_csv] and the
    ordering step of [main].

    Python strings are sequences of Unicode code points, so a [str] is a
    list of code points.  The ASCII part of every character table Python
    consults ([str.isspace], [\d], [\w], [str.lower], ...) is written out
    below; what CPython's Unicode database says about the code points from
    128 on, and what the [langdetect] package answers, is a field of the
    [Runtime] record, over which every statement is quantified. *)

From Stdlib Require Import Ascii String.
From Stdlib Require Import ZArith NArith List Bool Lia Permutation Sorted.
Import ListNotations.

Set Implicit Arguments.

(** ** Strings *)

Definition char := N.
Definition str := list char.

(** An ASCII literal of the source, as a list of code points. *)
Definition lit (s : string) : str := map N_of_ascii (list_ascii_of_string s).
Arguments lit s%_string.

Fixpoint str_eqb (a b : str) : bool :=
  match a, b with
  | [], [] => true
  | x :: a', y :: b' => N.eqb x y && str_eqb a' b'
  | _, _ => false
  end.

Definition str_in (s : str) (l : list str) : bool := existsb (str_eqb s) l.

Definition between (lo hi c : N) : bool := N.leb lo c && N.leb c hi.

Definition is_ascii (c : char) : bool := N.ltb c 128.

(** ASCII rows of the tables. *)
Definition ascii_isspace (c : char) : bool :=
  between 9 13 c || between 28 32 c.
Definition ascii_isdigit (c : char) : bool := between 48 57 c.
Definition ascii_isupper (c : char) : bool := between 65 90 c.
Definition ascii_islower (c : char) : bool := between 97 122 c.
Definition ascii_isalpha (c : char) : bool :=
  ascii_isupper c || ascii_islower c.
Definition ascii_lower (c : char) : char :=
  if ascii_isupper c then (c + 32)%N else c.

(** ** What the interpreter and its libraries supply *)

Record Runtime : Type := {
  (** [str.isspace] of a code point from 128 on *)
  uni_isspace : char -> bool;
  (** Unicode category Nd ([str.isdecimal], the [\d] of [re]) from 128 on *)
  uni_isdecimal : char -> bool;
  (** [str.isdigit] from 128 on *)
  uni_isdigit : char -> bool;
  (** [str.isnumeric] from 128 on *)
  uni_isnumeric : char -> bool;
  (** [str.isalpha] from 128 on *)
  uni_isalpha : char -> bool;
  (** [str.lower] of a string that is not pure ASCII *)
  uni_lower : str -> str;
  (** under [re.I]: does the pattern's (lower-case ASCII) letter match this
      code point from 128 on *)
  uni_imatch : char -> char -> bool;
  (** [int(s)] of a string that is not pure ASCII; [None] is [ValueError] *)
  uni_int : str -> option Z;
  (** what [langdetect.detect] answers during one call of
      [analyze_comment]; [None] is [LangDetectException].  The detector is
      not seeded, so another call may answer differently on the same text:
      that is another [Runtime], see [with_detect]. *)
  detect : str -> option str
}.

(** The same interpreter with a detector that answers [d]. *)
Definition with_detect (R : Runtime) (d : str -> option str) : Runtime :=
  {| uni_isspace := uni_isspace R;
     uni_isdecimal := uni_isdecimal R;
     uni_isdigit := uni_isdigit R;
     uni_isnumeric := uni_isnumeric R;
     uni_isalpha := uni_isalpha R;
     uni_lower := uni_lower R;
     uni_imatch := uni_imatch R;
     uni_int := uni_int R;
     detect := d |}.

Section Tables.
Variable R : Runtime.

Definition isspace (c : char) : bool :=
  if is_ascii c then ascii_isspace c else uni_isspace R c.
Definition isdecimal (c : char) : bool :=
  if is_ascii c then ascii_isdigit c else uni_isdecimal R c.
Definition isdigit (c : char) : bool :=
  if is_ascii c then ascii_isdigit c else uni_isdigit R c.
Definition isnumeric (c : char) : bool :=
  if is_ascii c then ascii_isdigit c else uni_isnumeric R c.
Definition isalpha (c : char) : bool :=
  if is_ascii c then ascii_isalpha c else uni_isalpha R c.

(** [\w] of [re] on a [str] pattern: alphanumeric or underscore, where
    alphanumeric is alpha, decimal, digit or numeric. *)
Definition isword (c : char) : bool :=
  isalpha c || isdecimal c || isdigit c || isnumeric c || N.eqb c 95.

(** [s.lower()] *)
Definition lower (s : str) : str :=
  if forallb is_ascii s then map ascii_lower s else uni_lower R s.

(** A literal letter [p] of a pattern compiled with [re.I], against the
    character [c] of the text. *)
Definition imatch (p c : char) : bool :=
  if is_ascii c then N.eqb (ascii_lower c) (ascii_lower p)
  else uni_imatch R (ascii_lower p) c.

(** [s.strip()] *)
Fixpoint lstrip (s : str) : str :=
  match s with
  | c :: t => if isspace c then lstrip t else s
  | [] => []
  end.
Definition rstrip (s : str) : str := rev (lstrip (rev s)).
Definition strip (s : str) : str := rstrip (lstrip s).

(** [s.isdigit()], [s.isalpha()]: non-empty and every character is one *)
Definition str_isdigit (s : str) : bool :=
  negb (Nat.eqb (length s) 0) && forallb isdigit s.
Definition str_isalpha (s : str) : bool :=
  negb (Nat.eqb (length s) 0) && forallb isalpha s.
End Tables.

(** ** Regular expressions

    The fragment of [re] the source uses.  [re.search] is only tested for
    truth, so the matcher computes every position a match starting at a
    cursor can end at, and [re_search] asks whether some start has one. *)

Inductive regex : Type :=
| Eps
| Class (p : char -> bool)                (* one character of a class *)
| Boundary (w : char -> bool)             (* \b, for the word class w *)
| Cat (r s : regex)
| Or (r s : regex)
| Maybe (r : regex)                       (* r? *)
| Rep (n : nat) (p : char -> bool)        (* p{n,} *)
| BackRep (p : char -> bool) (n : nat).   (* (p)\1{n,} *)

(** A cursor: the character before it, if any, and the text after it. *)
Definition cursor := (option char * str)%type.

Definition opt_test (w : char -> bool) (o : option char) : bool :=
  match o with Some c => w c | None => false end.

(** All cursors reached by reading zero or more characters of [p]. *)
Fixpoint run_ends (p : char -> bool) (prev : option char) (s : str)
  : list cursor :=
  (prev, s) :: match s with
               | c :: t => if p c then run_ends p (Some c) t else []
               | [] => []
               end.

(** All cursors reached by reading exactly [n] characters of [p], then any
    number more. *)
Fixpoint rep_ends (n : nat) (p : char -> bool) (prev : option char) (s : str)
  : list cursor :=
  match n with
  | O => run_ends p prev s
  | S n' => match s with
            | c :: t => if p c then rep_ends n' p (Some c) t else []
            | [] => []
            end
  end.

Fixpoint ends (r : regex) (k : cursor) : list cursor :=
  match r with
  | Eps => [k]
  | Class p =>
      match snd k with
      | c :: t => if p c then [(Some c, t)] else []
      | [] => []
      end
  | Boundary w =>
      if xorb (opt_test w (fst k)) (opt_test w (hd_error (snd k)))
      then [k] else []
  | Cat r1 r2 => flat_map (ends r2) (ends r1 k)
  | Or r1 r2 => ends r1 k ++ ends r2 k
  | Maybe r1 => ends r1 k ++ [k]
  | Rep n p => rep_ends n p (fst k) (snd k)
  | BackRep p n =>
      match snd k with
      | c :: t => if p c then rep_ends n (N.eqb c) (Some c) t else []
      | [] => []
      end
  end.

Definition matches_at (r : regex) (k : cursor) : bool :=
  match ends r k with [] => false | _ :: _ => true end.

Fixpoint search_from (r : regex) (prev : option char) (s : str) : bool :=
  matches_at r (prev, s) ||
  match s with
  | c :: t => search_from r (Some c) t
  | [] => false
  end.

(** [bool(re.search(r, s))] *)
Definition re_search (r : regex) (s : str) : bool := search_from r None s.

(** A literal, and a literal under [re.I]. *)
Fixpoint Lit (s : str) : regex :=
  match s with
  | [] => Eps
  | c :: t => Cat (Class (N.eqb c)) (Lit t)
  end.

Fixpoint ILit (R : Runtime) (s : str) : regex :=
  match s with
  | [] => Eps
  | c :: t => Cat (Class (imatch R c)) (ILit R t)
  end.

Fixpoint Alt (rs : list regex) (last : regex) : regex :=
  match rs with
  | [] => last
  | r :: rs' => Or r (Alt rs' last)
  end.

(** The character before the cursor once [s] has been read. *)
Definition last_char (prev : option char) (s : str) : option char :=
  fold_left (fun _ c => Some c) s prev.

(** [text] is [pre ++ run ++ post] where [run] is [n] or more characters of
    the class [digit]. *)
Definition has_run (digit : char -> bool) (n : nat) (text pre run post : str)
  : Prop :=
  text = pre ++ run ++ post /\ n <= length run /\ forallb digit run = true.

(** The run is delimited: neither the character before it nor the one after
    it, where there is one, is of the class [word]. *)
Definition delimited (word : char -> bool) (pre post : str) : Prop :=
  opt_test word (last_char None pre) = false
  /\ opt_test word (hd_error post) = false.

(** ** The data model *)

(** A comment is a dict; a field is [None] when the key is absent.  For
    the four fields read with [.get(k) or default] it also stands for a key
    that holds Python's [None]; [publishedAt] is read with [.get(k, '')],
    and a [publishedAt] that is present and holds [None] is outside the
    model (no producer of comments in the source makes one). *)
Record Comment : Type := {
  c_author : option str;
  c_text : option str;
  c_publishedAt : option str;
  c_likeCount : option Z;
  c_platform : option str
}.

Inductive Verdict : Type := real | likely_real | likely_fake | fake.

Record AnalysisResult : Type := {
  r_author : str;
  r_text : str;
  r_platform : str;
  r_publishedAt : str;
  r_likeCount : Z;
  r_score : Z;
  r_verdict : Verdict;
  r_reasons : list str;
  r_language : str
}.

(** [d.get(k) or default] on a string field: an absent, [None] or empty
    value gives the default. *)
Definition get_or (o : option str) (default : str) : str :=
  match o with
  | Some (c :: t) => c :: t
  | _ => default
  end.

(** [int(d.get(k) or 0)] on an integer field *)
Definition get_int (o : option Z) : Z :=
  match o with Some n => n | None => 0%Z end.

(** [d.get(k, '')] *)
Definition get_default (o : option str) : str :=
  match o with Some s => s | None => [] end.

(** ** The patterns of [analyze_comment] *)

Definition dot (c : char) : bool := negb (N.eqb c 10).
Definition punct (c : char) : bool := N.eqb c 33 || N.eqb c 63 || N.eqb c 46.
Definition emoji (c : char) : bool :=
  between 0x1F300 0x1F6FF c || between 0x1F900 0x1F9FF c
  || between 0x2600 0x27BF c.

(** [https?://|www\.] *)
Definition url_re : regex :=
  Or (Cat (Lit (lit "http")) (Cat (Maybe (Lit (lit "s"))) (Lit (lit "://"))))
     (Lit (lit "www.")).

(** [([!?.]){3,}] and [(.)\1{6,}] *)
Definition punct_re : regex := Rep 3 punct.
Definition repeat_re : regex := BackRep dot 6.

Section Analyzer.
Variable R : Runtime.

(** [\b\d{7,}\b] *)
Definition longnum_re : regex :=
  Cat (Boundary (isword R)) (Cat (Rep 7 (isdecimal R)) (Boundary (isword R))).

(** [follow me|check my profile|subscribe|dm for|contact me|visit my],
    with [re.I] *)
Definition promo_re : regex :=
  Alt [ILit R (lit "follow me"); ILit R (lit "check my profile");
       ILit R (lit "subscribe"); ILit R (lit "dm for");
       ILit R (lit "contact me")]
      (ILit R (lit "visit my")).

(** [user\d{2,}], with [re.I] *)
Definition generic_user_re : regex :=
  Cat (ILit R (lit "user")) (Rep 2 (isdecimal R)).

(** [(bot|spam|free|promo)], with [re.I] *)
Definition bot_re : regex :=
  Alt [ILit R (lit "bot"); ILit R (lit "spam"); ILit R (lit "free")]
      (ILit R (lit "promo")).

(** [len(re.findall(cls, text))] for a one-character class: one match per
    character of the class. *)
Definition count_class (p : char -> bool) (s : str) : nat :=
  length (filter p s).

Definition generic_praise : list str :=
  [lit "nice"; lit "good"; lit "great"; [0x1F44D%N]; [0x1F525%N]].

Definition msg_url : str := lit "Contains a URL or web link (common in spam).".
Definition msg_longnum : str :=
  lit "Contains a long numeric sequence (could be phone/ID).".
Definition msg_punct : str :=
  lit "Excessive punctuation or repeated characters.".
Definition msg_emoji : str :=
  lit "High emoji density (can indicate low-effort engagement).".
Definition msg_short : str :=
  lit "Very short or generic praise; often low-effort or bot-like.".
Definition msg_promo : str :=
  lit "Self-promotional call-to-action (common spam).".
Definition msg_likes : str :=
  lit "High likes " ++ [0x2014%N]
  ++ lit " social traction suggests authenticity.".
Definition msg_digits : str :=
  lit "Author name contains many digits / generic pattern (possible bot).".
Definition msg_shortname : str :=
  lit "Suspiciously short username (could be fake).".
Definition msg_bot : str := lit "Username contains bot/promo keywords.".
Definition msg_lang : str := lit "Language could not be reliably detected.".
Definition msg_unexpected : str :=
  lit "Short comment in an unexpected language for this post (weak signal).".

(** [detect_language]: the detector's exception becomes ['unknown']. *)
Definition detect_language (text : str) : str :=
  match detect R text with
  | Some l => l
  | None => lit "unknown"
  end.

(** The running [score] and [reasons] of [analyze_comment]. *)
Definition acc := (Z * list str)%type.

(** [score += d; reasons.append(msg)] *)
Definition flag (d : Z) (msg : str) (st : acc) : acc :=
  ((fst st + d)%Z, snd st ++ [msg]).

(** [score += d] *)
Definition adjust (d : Z) (st : acc) : acc := ((fst st + d)%Z, snd st).

(** [reasons.append(msg)] *)
Definition note (msg : str) (st : acc) : acc := (fst st, snd st ++ [msg]).

(** [if cond: body], with no [else] *)
Definition when (cond : bool) (body : acc -> acc) (st : acc) : acc :=
  if cond then body st else st.

(** The rules of [analyze_comment], in the order of the source: the state
    after the last [if], before the clamp. *)
Definition rules (text author : str) (like : Z) (platform lang : str)
  : acc :=
  let st : acc := (60%Z, []) in
  let st := when (re_search url_re text) (flag (-35) msg_url) st in
  let st := when (re_search longnum_re text) (flag (-10) msg_longnum) st in
  let st := when (re_search punct_re text || re_search repeat_re text)
              (flag (-8) msg_punct) st in
  let emoji_count := count_class emoji text in
  let st := when (Nat.leb 4 emoji_count) (flag (-6) msg_emoji) st in
  let st := when (Nat.leb (length text) 4
                  || str_in (lower R text) generic_praise)
              (flag (-12) msg_short) st in
  let st := when (re_search promo_re text) (flag (-30) msg_promo) st in
  let st := if Z.eqb like 0 then adjust (-4) st
            else when (Z.leb 25 like) (flag 10 msg_likes) st in
  let st :=
    match author with
    | [] => st
    | _ :: _ =>
        let digits := count_class (isdigit R) author in
        let st := when (Nat.leb 3 digits || re_search generic_user_re author)
                    (flag (-10) msg_digits) st in
        let st := when (Nat.leb (length author) 2 && str_isalpha R author)
                    (flag (-6) msg_shortname) st in
        let st := when (re_search bot_re author) (flag (-20) msg_bot) st in
        st
    end in
  if str_eqb lang (lit "unknown") then note msg_lang st
  else when (str_in platform [lit "facebook"; lit "instagram"]
             && negb (str_in lang [lit "en"; lit "unknown"]))
         (when (Nat.ltb (length text) 20) (flag (-6) msg_unexpected)) st.

(** [max(0, min(100, score))] *)
Definition clamp (score : Z) : Z := Z.max 0 (Z.min 100 score).

Definition verdict_of (score : Z) : Verdict :=
  if Z.leb 60 score then real
  else if Z.leb 40 score then likely_real
  else if Z.leb 20 score then likely_fake
  else fake.

Definition analyze_comment (comment : Comment) : AnalysisResult :=
  let text := strip R (get_or (c_text comment) []) in
  let author := strip R (get_or (c_author comment) []) in
  let like := get_int (c_likeCount comment) in
  let platform := get_or (c_platform comment) (lit "unknown") in
  let lang := match text with
              | [] => lit "unknown"
              | _ :: _ => detect_language text
              end in
  let st := rules text author like platform lang in
  let score := clamp (fst st) in
  {| r_author := match author with [] => lit "Unknown" | _ :: _ => author end;
     r_text := text;
     r_platform := platform;
     r_publishedAt := get_default (c_publishedAt comment);
     r_likeCount := like;
     r_score := score;
     r_verdict := verdict_of score;
     r_reasons := snd st;
     r_language := lang |}.

(** The score before the clamp. *)
Definition raw_score (comment : Comment) : Z :=
  let text := strip R (get_or (c_text comment) []) in
  let author := strip R (get_or (c_author comment) []) in
  let lang := match text with
              | [] => lit "unknown"
              | _ :: _ => detect_language text
              end in
  fst (rules text author (get_int (c_likeCount comment))
         (get_or (c_platform comment) (lit "unknown")) lang).
End Analyzer.

(** ** The rule table of the specification

    The same rules as a table: a trigger, a fixed adjustment and a reason
    per rule.  [rules_table] below shows that the chain of [if]s of
    [analyze_comment] computes this table. *)

Inductive rule : Type :=
| rule_url | rule_longnum | rule_punct | rule_emoji | rule_short
| rule_promo | rule_nolikes | rule_likes | rule_digits | rule_shortname
| rule_bot | rule_lang | rule_unexpected.

Definition all_rules : list rule :=
  [rule_url; rule_longnum; rule_punct; rule_emoji; rule_short; rule_promo;
   rule_nolikes; rule_likes; rule_digits; rule_shortname; rule_bot;
   rule_lang; rule_unexpected].

Definition rule_eqb (a b : rule) : bool :=
  match a, b with
  | rule_url, rule_url | rule_longnum, rule_longnum
  | rule_punct, rule_punct | rule_emoji, rule_emoji
  | rule_short, rule_short | rule_promo, rule_promo
  | rule_nolikes, rule_nolikes | rule_likes, rule_likes
  | rule_digits, rule_digits | rule_shortname, rule_shortname
  | rule_bot, rule_bot | rule_lang, rule_lang
  | rule_unexpected, rule_unexpected => true
  | _, _ => false
  end.

Definition delta (r : rule) : Z :=
  match r with
  | rule_url => -35
  | rule_longnum => -10
  | rule_punct => -8
  | rule_emoji => -6
  | rule_short => -12
  | rule_promo => -30
  | rule_nolikes => -4
  | rule_likes => 10
  | rule_digits => -10
  | rule_shortname => -6
  | rule_bot => -20
  | rule_lang => 0
  | rule_unexpected => -6
  end%Z.

(** The reason a rule emits; the zero-likes rule emits none. *)
Definition reason (r : rule) : list str :=
  match r with
  | rule_url => [msg_url]
  | rule_longnum => [msg_longnum]
  | rule_punct => [msg_punct]
  | rule_emoji => [msg_emoji]
  | rule_short => [msg_short]
  | rule_promo => [msg_promo]
  | rule_nolikes => []
  | rule_likes => [msg_likes]
  | rule_digits => [msg_digits]
  | rule_shortname => [msg_shortname]
  | rule_bot => [msg_bot]
  | rule_lang => [msg_lang]
  | rule_unexpected => [msg_unexpected]
  end.

Section Table.
Variable R : Runtime.

(** The trigger of each rule, on the values [analyze_comment] computes
    from the comment. *)
Definition trigger (text author : str) (like : Z) (platform lang : str)
           (r : rule) : bool :=
  match r with
  | rule_url => re_search url_re text
  | rule_longnum => re_search (longnum_re R) text
  | rule_punct => re_search punct_re text || re_search repeat_re text
  | rule_emoji => Nat.leb 4 (count_class emoji text)
  | rule_short =>
      Nat.leb (length text) 4 || str_in (lower R text) generic_praise
  | rule_promo => re_search (promo_re R) text
  | rule_nolikes => Z.eqb like 0
  | rule_likes => Z.leb 25 like
  | rule_digits =>
      negb (Nat.eqb (length author) 0)
      && (Nat.leb 3 (count_class (isdigit R) author)
          || re_search (generic_user_re R) author)
  | rule_shortname =>
      negb (Nat.eqb (length author) 0)
      && (Nat.leb (length author) 2 && str_isalpha R author)
  | rule_bot =>
      negb (Nat.eqb (length author) 0) && re_search (bot_re R) author
  | rule_lang => str_eqb lang (lit "unknown")
  | rule_unexpected =>
      negb (str_eqb lang (lit "unknown"))
      && str_in platform [lit "facebook"; lit "instagram"]
      && negb (str_in lang [lit "en"; lit "unknown"])
      && Nat.ltb (length text) 20
  end.

(** Does rule [r] fire on this comment. *)
Definition fires (comment : Comment) (r : rule) : bool :=
  let text := strip R (get_or (c_text comment) []) in
  let author := strip R (get_or (c_author comment) []) in
  let lang := match text with
              | [] => lit "unknown"
              | _ :: _ => detect_language R text
              end in
  trigger text author (get_int (c_likeCount comment))
    (get_or (c_platform comment) (lit "unknown")) lang r.
End Table.

(** The sum of the adjustments of the rules of [l] that fire. *)
Fixpoint total (f : rule -> bool) (l : list rule) : Z :=
  match l with
  | [] => 0
  | r :: l' => (if f r then delta r else 0) + total f l'
  end%Z.

(** The reasons of the rules of [l] that fire, in the order of [l]. *)
Fixpoint explain (f : rule -> bool) (l : list rule) : list str :=
  match l with
  | [] => []
  | r :: l' => (if f r then reason r else []) ++ explain f l'
  end.

(** The sum of the positive adjustments of a list of rules. *)
Fixpoint gain (l : list rule) : Z :=
  match l with
  | [] => 0
  | r :: l' => Z.max 0 (delta r) + gain l'
  end%Z.

(** The rules other than [r]. *)
Definition others (r : rule) : list rule :=
  filter (fun r' => negb (rule_eqb r' r)) all_rules.

(** ** The ordering step of [main]

    [sorted(analysis, key=lambda x: x['score'])].  Python's [sorted] is a
    stable ascending sort; it is embedded as the insertion sort that puts
    an element before the first one of the sorted rest whose key is not
    smaller.  [sorted_by_unique] shows that the choice of algorithm does not
    matter: an ascending, stable rearrangement is unique. *)

Section Sorting.
Variable A : Type.
Variable key : A -> Z.

Fixpoint insert_by (x : A) (l : list A) : list A :=
  match l with
  | [] => [x]
  | y :: t => if Z.leb (key x) (key y) then x :: y :: t
              else y :: insert_by x t
  end.

Fixpoint sorted_by (l : list A) : list A :=
  match l with
  | [] => []
  | x :: t => insert_by x (sorted_by t)
  end.

(** The elements of [l] whose key is [k], in their order in [l]. *)
Definition with_key (k : Z) (l : list A) : list A :=
  filter (fun x => Z.eqb (key x) k) l.

Definition ascending (l : list A) : Prop :=
  StronglySorted (fun x y => (key x <= key y)%Z) l.
End Sorting.

(** [analysis = [analyze_comment(c) for c in collected]] and
    [analysis_sorted = sorted(analysis, key=lambda x: x['score'])] *)
Definition analysis (R : Runtime) (collected : list Comment)
  : list AnalysisResult :=
  map (analyze_comment R) collected.

Definition analysis_sorted (analysis : list AnalysisResult)
  : list AnalysisResult :=
  sorted_by r_score analysis.

(** ** The CSV reader

    [csv.DictReader] and the file are the library's; the reader is embedded
    from the rows on: a headered file is the list of its rows, each a dict
    from column name to value ([None] where [DictReader] fills in its
    [restval]).  [reader.fieldnames is None] holds only of a file with no
    line at all, so the headerless branch loops over no line; the body of
    its loop is embedded as it is written. *)

Definition row := list (str * option str).

(** [row.get(k)] *)
Fixpoint row_get (k : str) (r : row) : option str :=
  match r with
  | [] => None
  | (k', v) :: r' => if str_eqb k k' then v else row_get k r'
  end.

(** [a or b] on values that are strings or [None] *)
Definition or_else (a b : option str) : option str :=
  match a with
  | Some (c :: t) => a
  | _ => b
  end.

(** [s.split(sep)] for a one-character separator *)
Fixpoint split_on (sep : char) (s : str) : list str :=
  match s with
  | [] => [[]]
  | c :: t =>
      if N.eqb c sep then [] :: split_on sep t
      else match split_on sep t with
           | p :: ps => (c :: p) :: ps
           | [] => [[c]]
           end
  end.

(** The digits of a decimal literal, with single underscores allowed between
    digits. *)
Fixpoint digits_value (acc : Z) (after_digit : bool) (s : str) : option Z :=
  match s with
  | [] => if after_digit then Some acc else None
  | c :: t =>
      if ascii_isdigit c
      then digits_value (acc * 10 + Z.of_N (c - 48)) true t
      else if N.eqb c 95 && after_digit then digits_value acc false t
      else None
  end.

(** The whitespace [int] skips around a pure-ASCII string: tab to carriage
    return, and the blank (not 0x1C to 0x1F, which [str.strip] removes). *)
Definition c_isspace (c : char) : bool := between 9 13 c || N.eqb c 32.

Fixpoint drop_while (p : char -> bool) (s : str) : str :=
  match s with
  | c :: t => if p c then drop_while p t else s
  | [] => []
  end.

Definition c_strip (s : str) : str :=
  rev (drop_while c_isspace (rev (drop_while c_isspace s))).

(** The interpreter's default limit on the digits [int] converts. *)
Definition max_str_digits : nat := 4300.

(** [int(s)] of a pure-ASCII string without surrounding whitespace: an
    optional sign, then digits; more digits than the limit raise. *)
Definition ascii_int (s : str) : option Z :=
  match s with
  | c :: t =>
      if Nat.ltb max_str_digits (length (filter ascii_isdigit s)) then None
      else if N.eqb c 43 then digits_value 0 false t
      else if N.eqb c 45 then option_map Z.opp (digits_value 0 false t)
      else digits_value 0 false s
  | [] => None
  end.

(** [int(s)] of a string; [None] is [ValueError]. *)
Definition py_int (R : Runtime) (s : str) : option Z :=
  if forallb is_ascii s then ascii_int (c_strip s) else uni_int R s.

(** What one turn of a reading loop does. *)
Inductive turn : Type :=
| Appended (c : Comment)    (* comments.append(...) *)
| Skipped                   (* continue *)
| Raised.                   (* an exception leaves the loop *)

Section Reader.
Variable R : Runtime.

(** The body of [for ln in f] *)
Definition headerless_line (ln : str) : turn :=
  let parts := split_on 44%N (strip R ln) in
  if Nat.ltb (length parts) 2 then Skipped
  else
    let like :=
      if Nat.ltb 3 (length parts) && str_isdigit R (nth 3 parts [])
      then py_int R (nth 3 parts [])
      else Some 0%Z in
    match like with
    | None => Raised
    | Some n =>
        Appended
          {| c_author := Some (strip R (nth 0 parts []));
             c_text := Some (strip R (nth 1 parts []));
             c_publishedAt :=
               Some (if Nat.ltb 2 (length parts)
                     then strip R (nth 2 parts []) else []);
             c_likeCount := Some n;
             c_platform :=
               Some (if Nat.ltb 4 (length parts)
                     then strip R (nth 4 parts []) else lit "unknown") |}
    end.

(** The body of [for row in reader] *)
Definition headered_row (r : row) : turn :=
  let like :=
    match or_else (row_get (lit "likeCount") r) (row_get (lit "likes") r) with
    | Some (c :: t) => py_int R (c :: t)
    | _ => Some 0%Z
    end in
  match like with
  | None => Raised
  | Some n =>
      Appended
        {| c_author :=
             Some (get_or (or_else (row_get (lit "author") r)
                             (or_else (row_get (lit "user") r)
                                (row_get (lit "username") r)))
                     (lit "Unknown"));
           c_text :=
             Some (get_or (or_else (row_get (lit "text") r)
                             (row_get (lit "comment") r)) []);
           c_publishedAt :=
             Some (get_or (or_else (row_get (lit "publishedAt") r)
                             (row_get (lit "time") r)) []);
           c_likeCount := Some n;
           c_platform := Some (get_or (row_get (lit "platform") r)
                                 (lit "unknown")) |}
  end.

(** A loop inside [try]: the comments appended so far, and whether the
    [except] branch was taken. *)
Fixpoint read_loop (X : Type) (body : X -> turn) (items : list X)
         (comments : list Comment) : list Comment * bool :=
  match items with
  | [] => (comments, false)
  | x :: rest =>
      match body x with
      | Appended c => read_loop body rest (comments ++ [c])
      | Skipped => read_loop body rest comments
      | Raised => (comments, true)
      end
  end.

(** A file as [csv.DictReader] presents it: without field names, which is
    the file with no line, or with the rows that follow its header. *)
Inductive csv_file : Type :=
| Headerless
| Headered (rows : list row).

Definition read_csv (f : csv_file) : list Comment * bool :=
  match f with
  | Headerless => read_loop headerless_line [] []
  | Headered rows => read_loop headered_row rows []
  end.

(** [read_comments_csv] returns the comments. *)
Definition read_comments_csv (f : csv_file) : list Comment :=
  fst (read_csv f).
End Reader.

(** ** Sample data *)

(** A runtime that knows ASCII only and whose detector answers ["en"]. *)
Definition ascii_runtime : Runtime :=
  {| uni_isspace := fun _ => false;
     uni_isdecimal := fun _ => false;
     uni_isdigit := fun _ => false;
     uni_isnumeric := fun _ => false;
     uni_isalpha := fun _ => false;
     uni_lower := fun s => s;
     uni_imatch := fun _ _ => false;
     uni_int := fun _ => None;
     detect := fun _ => Some (lit "en") |}.

(** The first YouTube sample of [load_sample_comments]. *)
Definition sample_user123 : Comment :=
  {| c_author := Some (lit "User123");
     c_text := Some (lit "Great video! Loved it.");
     c_publishedAt := Some (lit "2023-01-01");
     c_likeCount := Some 10%Z;
     c_platform := Some (lit "youtube") |}.

Definition empty_comment (publishedAt platform : option str) : Comment :=
  {| c_author := Some [];
     c_text := Some [];
     c_publishedAt := publishedAt;
     c_likeCount := Some 0%Z;
     c_platform := platform |}.

(** Two comments that differ in the like count only, both with a link and
    a call to subscribe. *)
Definition promo_comment (likes : Z) : Comment :=
  {| c_author := Some (lit "Alice");
     c_text := Some (lit "subscribe at http://a.b now");
     c_publishedAt := Some (lit "2023-01-01");
     c_likeCount := Some likes;
     c_platform := Some (lit "youtube") |}.

(** The first YouTube sample with another like count. *)
Definition user123_with_likes (likes : Z) : Comment :=
  {| c_author := Some (lit "User123");
     c_text := Some (lit "Great video! Loved it.");
     c_publishedAt := Some (lit "2023-01-01");
     c_likeCount := Some likes;
     c_platform := Some (lit "youtube") |}.

(** A comment whose text starts with a blank. *)
Definition padded_comment : Comment :=
  {| c_author := Some (lit "FriendA");
     c_text := Some (lit " Nice post!");
     c_publishedAt := Some (lit "2023-02-01");
     c_likeCount := Some 15%Z;
     c_platform := Some (lit "facebook") |}.

(** A comment whose text has a digit run glued to letters. *)
Definition glued_digits_comment : Comment :=
  {| c_author := Some (lit "Alice");
     c_text := Some (lit "abc1234567");
     c_publishedAt := Some (lit "2023-01-01");
     c_likeCount := Some 5%Z;
     c_platform := Some (lit "youtube") |}.

(** The fourth YouTube sample of [load_sample_comments]. *)
Definition sample_spambot : Comment :=
  {| c_author := Some (lit "SpamBot789");
     c_text := Some (lit "Call now 1234567890 for deals!!!");
     c_publishedAt := Some (lit "2023-01-04");
     c_likeCount := Some 0%Z;
     c_platform := Some (lit "youtube") |}.

Definition bad_row : row :=
  [(lit "author", Some (lit "Bob")); (lit "text", Some (lit "hello"));
   (lit "likeCount", Some (lit "abc"))].
Definition good_row : row :=
  [(lit "author", Some (lit "Ann")); (lit "text", Some (lit "hi there"));
   (lit "likeCount", Some (lit "7"))].

(** ** Platform detection *)

(** [s.startswith(sub)] and [sub in s] *)
Fixpoint starts_with (sub s : str) : bool :=
  match sub, s with
  | [], _ => true
  | a :: sub', c :: s' => N.eqb a c && starts_with sub' s'
  | _ :: _, [] => false
  end.

Fixpoint contains (sub s : str) : bool :=
  starts_with sub s ||
  match s with
  | _ :: s' => contains sub s'
  | [] => false
  end.

Definition detect_platform_from_url (R : Runtime) (url : str) : str :=
  let url := lower R url in
  if contains (lit "youtube.com") url || contains (lit "youtu.be") url
  then lit "youtube"
  else if contains (lit "instagram.com") url then lit "instagram"
  else if contains (lit "facebook.com") url then lit "facebook"
  else if contains (lit "x.com") url || contains (lit "twitter.com") url
  then lit "x"
  else if contains (lit "linkedin.com") url then lit "linkedin"
  else lit "unknown".

(** The substrings [detect_platform_from_url] looks for. *)
Definition markers : list str :=
  [lit "youtube.com"; lit "youtu.be"; lit "instagram.com";
   lit "facebook.com"; lit "x.com"; lit "twitter.com"; lit "linkedin.com"].

Definition platforms : list str :=
  [lit "youtube"; lit "instagram"; lit "facebook"; lit "x"; lit "linkedin";
   lit "unknown"].

(** ** The demo comments *)

Definition mk_sample (author text publishedAt : str) (likeCount : Z)
           (platform : str) : Comment :=
  {| c_author := Some author; c_text := Some text;
     c_publishedAt := Some publishedAt; c_likeCount := Some likeCount;
     c_platform := Some platform |}.

(** The [samples] dict of [load_sample_comments], in source order. *)
Definition samples : list (str * list Comment) :=
  [(lit "youtube",
    [mk_sample (lit "User123") (lit "Great video! Loved it.")
       (lit "2023-01-01") 10 (lit "youtube");
     mk_sample (lit "BotLike456")
       (lit "Check my channel for free stuff! https://example.com")
       (lit "2023-01-02") 0 (lit "youtube");
     mk_sample (lit "RealFan") (lit "This changed my perspective.")
       (lit "2023-01-03") 5 (lit "youtube");
     mk_sample (lit "SpamBot789") (lit "Call now 1234567890 for deals!!!")
       (lit "2023-01-04") 0 (lit "youtube")]);
   (lit "facebook",
    [mk_sample (lit "FriendA") (lit "Nice post!")
       (lit "2023-02-01") 15 (lit "facebook");
     mk_sample (lit "PromoBot") (lit "Follow me for more")
       (lit "2023-02-02") 1 (lit "facebook")]);
   (lit "instagram",
    [mk_sample (lit "Follower1") [0x1F525%N; 0x1F525%N; 0x1F525%N]
       (lit "2023-03-01") 20 (lit "instagram");
     mk_sample (lit "FakeUser") (lit "DM for collab")
       (lit "2023-03-02") 0 (lit "instagram")]);
   (lit "x",
    [mk_sample (lit "TweeterX") (lit "Interesting thread.")
       (lit "2023-04-01") 8 (lit "x");
     mk_sample (lit "BotTweet") (lit "Visit my site: http://spam.com")
       (lit "2023-04-02") 0 (lit "x")]);
   (lit "linkedin",
    [mk_sample (lit "Professional1") (lit "Valuable insights.")
       (lit "2023-05-01") 12 (lit "linkedin");
     mk_sample (lit "NetworkBot") (lit "Connect with me for opportunities.")
       (lit "2023-05-02") 2 (lit "linkedin")]);
   (lit "unknown",
    [mk_sample (lit "DefaultUser") (lit "Sample comment.")
       (lit "2023-06-01") 3 (lit "unknown")])].

(** [d.get(k)] on a dict with string keys *)
Fixpoint dict_get (V : Type) (k : str) (d : list (str * V)) : option V :=
  match d with
  | [] => None
  | (k', v) :: d' => if str_eqb k k' then Some v else dict_get k d'
  end.

(** [samples.get(platform, samples['unknown'])] *)
Definition load_sample_comments (platform : str) : list Comment :=
  match dict_get platform samples with
  | Some l => l
  | None => match dict_get (lit "unknown") samples with
            | Some l => l
            | None => []
            end
  end.

(** The end of [process_url]: [fetched] is what the branch of the platform
    left in [collected] (the fetcher's answer, or nothing); an empty
    [collected] is replaced by the demo comments. *)
Definition process_url (R : Runtime) (url : str) (fetched : list Comment)
  : str * list Comment :=
  let platform := detect_platform_from_url R url in
  let collected := match fetched with
                   | [] => load_sample_comments platform
                   | _ :: _ => fetched
                   end in
  (platform, collected).

(** ** The summary of the report *)

Definition verdict_eqb (a b : Verdict) : bool :=
  match a, b with
  | real, real | likely_real, likely_real
  | likely_fake, likely_fake | fake, fake => true
  | _, _ => false
  end.

(** The verdicts from worst to best. *)
Definition verdict_rank (v : Verdict) : nat :=
  match v with
  | fake => 0
  | likely_fake => 1
  | likely_real => 2
  | real => 3
  end.

(** [counts[v] = counts.get(v, 0) + 1] on a dict that keeps the order in
    which its keys were first set. *)
Fixpoint bump (v : Verdict) (counts : list (Verdict * nat))
  : list (Verdict * nat) :=
  match counts with
  | [] => [(v, 1)]
  | (k, n) :: rest => if verdict_eqb k v then (k, n + 1) :: rest
                      else (k, n) :: bump v rest
  end.

(** The loop over [analysis_list] that fills [counts]. *)
Definition count_verdicts (analysis_list : list AnalysisResult)
  : list (Verdict * nat) :=
  fold_left (fun counts a => bump (r_verdict a) counts) analysis_list [].

(** [counts.get(v, 0)] *)
Fixpoint counts_get (v : Verdict) (counts : list (Verdict * nat)) : nat :=
  match counts with
  | [] => 0
  | (k, n) :: rest => if verdict_eqb k v then n else counts_get v rest
  end.

(** [sum(1 for a in analysis_list if a['verdict'] in ('real',
    'likely-real'))] *)
Definition real_count (analysis_list : list AnalysisResult) : nat :=
  length (filter (fun a => verdict_eqb (r_verdict a) real
                           || verdict_eqb (r_verdict a) likely_real)
            analysis_list).

(** [total - real_count] *)
Definition fake_count (analysis_list : list AnalysisResult) : Z :=
  (Z.of_nat (length analysis_list) - Z.of_nat (real_count analysis_list))%Z.

(** The slices of [create_pie_chart]: a label's verdict and its size for
    every positive count; the label is [None] for the single slice
    "No comments". *)
Definition pie_slices (counts : list (Verdict * nat))
  : list (option Verdict * nat) :=
  match filter (fun kv => Nat.ltb 0 (snd kv)) counts with
  | [] => [(None, 1)]
  | kv :: rest => map (fun kv => (Some (fst kv), snd kv)) (kv :: rest)
  end.

(** [range(0, n, step)] for a positive [step] *)
Definition range_step (n step : nat) : list nat :=
  map (fun i => i * step) (seq 0 ((n + step - 1) / step)).

(** [s[a:b]] for [0 <= a <= b] *)
Definition slice (s : str) (a b : nat) : str := firstn (b - a) (skipn a s).

(** The lines a string is drawn on:
    [s[start:start+width] for start in range(0, len(s), width)] *)
Definition wrap (width : nat) (s : str) : list str :=
  map (fun start => slice s start (start + width))
    (range_step (length s) width).

(** ** Reading a result as a comment

    A result dict has the five keys of a comment, so it can be analyzed
    again. *)
Definition as_comment (res : AnalysisResult) : Comment :=
  {| c_author := Some (r_author res);
     c_text := Some (r_text res);
     c_publishedAt := Some (r_publishedAt res);
     c_likeCount := Some (r_likeCount res);
     c_platform := Some (r_platform res) |}.

(** The phrases of [promo_re] and the keywords of [bot_re]. *)
Definition promo_phrases : list str :=
  [lit "follow me"; lit "check my profile"; lit "subscribe"; lit "dm for";
   lit "contact me"; lit "visit my"].
Definition bot_keywords : list str :=
  [lit "bot"; lit "spam"; lit "free"; lit "promo"].

(** [url.split('/')[-1] if '/' in url else None], kept when it is not
    empty: the object id of a Facebook URL and the URN of a LinkedIn URL in
    [process_url]. *)
Definition last_segment (url : str) : option str :=
  if existsb (N.eqb 47) url
  then match last (split_on 47%N url) [] with
       | [] => None
       | c :: t => Some (c :: t)
       end
  else None.

(** The keys of [counts] are distinct and its counts positive. *)
Definition well_counted (counts : list (Verdict * nat)) : Prop :=
  NoDup (map fst counts) /\ Forall (fun kv => 0 < snd kv) counts.

(** The number of results with the verdict [v]. *)
Definition tally (v : Verdict) (l : list AnalysisResult) : nat :=
  length (filter (fun a => verdict_eqb (r_verdict a) v) l).

(** [sep.join(parts)] for a one-character separator *)
Fixpoint join (sep : char) (parts : list str) : str :=
  match parts with
  | [] => []
  | p :: rest => match rest with
                 | [] => p
                 | _ :: _ => p ++ sep :: join sep rest
                 end
  end.

(** All five keys of the comment are set. *)
Definition populated (c : Comment) : Prop :=
  c_author c <> None /\ c_text c <> None /\ c_publishedAt c <> None
  /\ c_likeCount c <> None /\ c_platform c <> None.

(** The first character of [s], if any, is not whitespace. *)
Definition no_lead (R : Runtime) (s : str) : Prop :=
  match s with
  | c :: _ => isspace R c = false
  | [] => True
  end.

(** The least number of characters a match of the pattern reads. *)
Fixpoint min_len (r : regex) : nat :=
  match r with
  | Eps => 0
  | Class _ => 1
  | Boundary _ => 0
  | Cat r1 r2 => min_len r1 + min_len r2
  | Or r1 r2 => Nat.min (min_len r1) (min_len r2)
  | Maybe _ => 0
  | Rep n _ => n
  | BackRep _ n => S n
  end.

(** A URL whose host merely ends in "x.com". *)
Definition netflix_url : str := lit "https://www.netflix.com/title/1".

(** * Properties *)

(** ** The chain of rules computes the rule table *)

Section RulesTable.
Variable R : Runtime.

Lemma when_flag (b : bool) (d : Z) (m : str) (s : Z) (rs : list str) :
  when b (flag d m) (s, rs)
  = ((s + (if b then d else 0))%Z, rs ++ (if b then [m] else [])).
Proof.
  destruct b; unfold when, flag; simpl; f_equal.
  - lia.
  - now rewrite app_nil_r.
Qed.

Lemma rules_table (text author : str) (like : Z) (platform lang : str) :
  rules R text author like platform lang
  = ((60 + total (trigger R text author like platform lang) all_rules)%Z,
     explain (trigger R text author like platform lang) all_rules).
Proof.
  unfold rules. cbv zeta.
  cbn [total explain all_rules trigger delta reason].
  rewrite !when_flag.
  assert (Hlikes : (like =? 0)%Z = true -> (25 <=? like)%Z = false)
    by (intros H; apply Z.eqb_eq in H; subst like; reflexivity).
  destruct (like =? 0)%Z; [rewrite (Hlikes eq_refl) | ];
    unfold adjust; cbn [fst snd];
    destruct author as [| a author']; cbn [length Nat.eqb negb andb];
    rewrite ?when_flag;
    destruct (str_eqb lang (lit "unknown")); unfold note;
    cbn [fst snd negb andb]; rewrite ?when_flag;
    try (destruct (str_in platform [lit "facebook"; lit "instagram"]
                   && negb (str_in lang [lit "en"; lit "unknown"]));
         unfold when at 1; cbn [andb]; rewrite ?when_flag).
  all: f_equal;
    [ lia | rewrite <- ?app_assoc; cbn [app]; rewrite ?app_nil_r;
            reflexivity ].
Qed.
End RulesTable.

(** ** Score, verdict and reasons *)

Section Scoring.
Variable R : Runtime.

Lemma clamp_range (s : Z) : (0 <= clamp s <= 100)%Z.
Proof. unfold clamp. lia. Qed.

Lemma clamp_id (s : Z) : (0 <= s <= 100)%Z -> clamp s = s.
Proof. unfold clamp. lia. Qed.

Lemma score_is_clamped_raw (c : Comment) :
  r_score (analyze_comment R c) = clamp (raw_score R c).
Proof. reflexivity. Qed.

Lemma raw_score_table (c : Comment) :
  raw_score R c = (60 + total (fires R c) all_rules)%Z.
Proof.
  unfold raw_score. cbv zeta. rewrite rules_table. reflexivity.
Qed.

(** The reasons are those of the rules that fired, in rule order. *)
Lemma reasons_table (c : Comment) :
  r_reasons (analyze_comment R c) = explain (fires R c) all_rules.
Proof.
  unfold analyze_comment. cbv zeta. cbn [r_reasons].
  rewrite rules_table. reflexivity.
Qed.

Lemma total_le_gain (f : rule -> bool) (l : list rule) :
  (total f l <= gain l)%Z.
Proof.
  induction l as [| r l IH]; cbn [total gain]; [lia |].
  destruct (f r); lia.
Qed.

Lemma raw_score_le_70 (c : Comment) : (raw_score R c <= 70)%Z.
Proof.
  rewrite raw_score_table.
  pose proof (total_le_gain (fires R c) all_rules) as H.
  change (gain all_rules) with 10%Z in H. lia.
Qed.
End Scoring.

(** C1: for every comment, the score of the result of [analyze_comment] is
    an integer between 0 and 100, whatever rules fire. *)
Theorem score_in_range (R : Runtime) (c : Comment) :
  (0 <= r_score (analyze_comment R c) <= 100)%Z.
Proof.
  rewrite score_is_clamped_raw. apply clamp_range.
Qed.

(** C2: the verdict is given by the clamped score alone, through the
    thresholds 60, 40 and 20. *)
Theorem verdict_thresholds (R : Runtime) (c : Comment) :
  let res := analyze_comment R c in
  ((60 <= r_score res)%Z -> r_verdict res = real)
  /\ ((40 <= r_score res < 60)%Z -> r_verdict res = likely_real)
  /\ ((20 <= r_score res < 40)%Z -> r_verdict res = likely_fake)
  /\ ((r_score res < 20)%Z -> r_verdict res = fake).
Proof.
  cbv zeta.
  assert (Hv : r_verdict (analyze_comment R c)
               = verdict_of (r_score (analyze_comment R c))) by reflexivity.
  rewrite Hv. generalize (r_score (analyze_comment R c)). intros s.
  unfold verdict_of.
  destruct (Z.leb_spec 60 s), (Z.leb_spec 40 s), (Z.leb_spec 20 s);
    repeat split; intros; try reflexivity; lia.
Qed.

(** C10: the score never exceeds 70: from the start at 60 the only rule
    that adds is the one for 25 likes or more, which adds 10. *)
Theorem score_at_most_70 (R : Runtime) (c : Comment) :
  (r_score (analyze_comment R c) <= 70)%Z.
Proof.
  rewrite score_is_clamped_raw.
  pose proof (raw_score_le_70 R c). unfold clamp. lia.
Qed.

(** ** Rule independence *)

Lemma rule_eqb_spec (a b : rule) : reflect (a = b) (rule_eqb a b).
Proof.
  destruct a, b; simpl; constructor; congruence.
Qed.

Lemma total_agree (f g : rule -> bool) (r : rule) (l : list rule) :
  (forall r', r' <> r -> f r' = g r') -> ~ In r l -> total g l = total f l.
Proof.
  intros Hfg. induction l as [| x l IH]; intros Hr; cbn [total].
  - reflexivity.
  - rewrite IH by (intros H; apply Hr; now right).
    rewrite (Hfg x) by (intros ->; apply Hr; now left). reflexivity.
Qed.

Lemma total_toggle (f g : rule -> bool) (r : rule) (l : list rule) :
  NoDup l -> In r l -> f r = false -> g r = true ->
  (forall r', r' <> r -> f r' = g r') ->
  (total g l = total f l + delta r)%Z.
Proof.
  intros Hnd Hin Hf Hg Hfg.
  induction Hnd as [| x l Hx Hnd IH]; [destruct Hin |].
  cbn [total]. destruct (rule_eqb_spec x r) as [-> | Hne].
  - rewrite Hf, Hg, (@total_agree f g r l Hfg Hx). lia.
  - destruct Hin as [-> | Hin]; [congruence |].
    rewrite (IH Hin), (Hfg x Hne). lia.
Qed.

Lemma all_rules_NoDup : NoDup all_rules.
Proof.
  unfold all_rules.
  repeat (constructor; [simpl; intuition discriminate |]). constructor.
Qed.

Lemma all_rules_complete (r : rule) : In r all_rules.
Proof. destruct r; simpl; tauto. Qed.

(** C6, amended: when two comments differ in the trigger of exactly one rule,
    their scores before the clamp differ by exactly that rule's adjustment;
    so do the final scores whenever neither score before the clamp is
    negative. *)
Theorem rule_independence (R : Runtime) (c1 c2 : Comment) (r : rule) :
  fires R c1 r = false ->
  fires R c2 r = true ->
  (forall r', r' <> r -> fires R c1 r' = fires R c2 r') ->
  (raw_score R c2 = raw_score R c1 + delta r)%Z
  /\ ((0 <= raw_score R c1)%Z -> (0 <= raw_score R c2)%Z ->
      (r_score (analyze_comment R c2)
       = r_score (analyze_comment R c1) + delta r)%Z).
Proof.
  intros H1 H2 Hothers.
  assert (Hraw : (raw_score R c2 = raw_score R c1 + delta r)%Z).
  { rewrite !raw_score_table.
    rewrite (@total_toggle (fires R c1) (fires R c2) r all_rules
               all_rules_NoDup (all_rules_complete r) H1 H2 Hothers).
    lia. }
  split; [exact Hraw |].
  intros Hpos1 Hpos2. rewrite !score_is_clamped_raw.
  pose proof (raw_score_le_70 R c1). pose proof (raw_score_le_70 R c2).
  rewrite !clamp_id by lia. exact Hraw.
Qed.

Lemma rule_independence_witness :
  (raw_score ascii_runtime (user123_with_likes 30)
   = raw_score ascii_runtime (user123_with_likes 10) + delta rule_likes)%Z
  /\ ((0 <= raw_score ascii_runtime (user123_with_likes 10))%Z ->
      (0 <= raw_score ascii_runtime (user123_with_likes 30))%Z ->
      (r_score (analyze_comment ascii_runtime (user123_with_likes 30))
       = r_score (analyze_comment ascii_runtime (user123_with_likes 10))
         + delta rule_likes)%Z).
Proof.
  apply (@rule_independence ascii_runtime (user123_with_likes 10)
           (user123_with_likes 30) rule_likes).
  - vm_compute. reflexivity.
  - vm_compute. reflexivity.
  - intros r' Hr'. destruct r'; try (vm_compute; reflexivity).
    exfalso. apply Hr'. reflexivity.
Defined.

(** The claim as worded fails under the clamp: the two comments below differ
    in the zero-likes rule only, yet both final scores are 0. *)
Lemma rule_independence_final_score_counterexample :
  fires ascii_runtime (promo_comment 5) rule_nolikes = false
  /\ fires ascii_runtime (promo_comment 0) rule_nolikes = true
  /\ (forall r', r' <> rule_nolikes ->
        fires ascii_runtime (promo_comment 5) r'
        = fires ascii_runtime (promo_comment 0) r')
  /\ raw_score ascii_runtime (promo_comment 5) = (-5)%Z
  /\ raw_score ascii_runtime (promo_comment 0) = (-9)%Z
  /\ r_score (analyze_comment ascii_runtime (promo_comment 5)) = 0%Z
  /\ r_score (analyze_comment ascii_runtime (promo_comment 0)) = 0%Z
  /\ (r_score (analyze_comment ascii_runtime (promo_comment 0))
      - r_score (analyze_comment ascii_runtime (promo_comment 5))
      <> delta rule_nolikes)%Z.
Proof.
  repeat split; try (vm_compute; reflexivity).
  - intros r' Hr'. destruct r'; try (vm_compute; reflexivity).
    exfalso. apply Hr'. reflexivity.
  - vm_compute. discriminate.
Qed.

(** ** The concrete scenarios *)

(** C3, amended: on the sample comment of "User123" with ten likes, detected
    as English, the author-digits rule fires (the name has three digits and
    has the form user + digits): the score is 50, the verdict likely-real,
    and the only reason is the one of that rule. *)
Theorem user123_scenario (R : Runtime) :
  detect R (lit "Great video! Loved it.") = Some (lit "en") ->
  let res := analyze_comment R sample_user123 in
  r_score res = 50%Z
  /\ r_verdict res = likely_real
  /\ r_reasons res = [msg_digits]
  /\ r_language res = lit "en"
  /\ fires R sample_user123 rule_digits = true.
Proof.
  intros H. vm_compute in H. vm_compute. rewrite H.
  repeat split; reflexivity.
Qed.

Lemma user123_scenario_witness :
  let res := analyze_comment ascii_runtime sample_user123 in
  r_score res = 50%Z
  /\ r_verdict res = likely_real
  /\ r_reasons res = [msg_digits]
  /\ r_language res = lit "en"
  /\ fires ascii_runtime sample_user123 rule_digits = true.
Proof.
  apply (@user123_scenario ascii_runtime). reflexivity.
Defined.

(** The scenario as worded (score 60, verdict real) fails: with the detector
    answering English, the score is not 60 and the verdict is not real. *)
Lemma user123_not_60_counterexample :
  detect ascii_runtime (lit "Great video! Loved it.") = Some (lit "en")
  /\ r_score (analyze_comment ascii_runtime sample_user123) <> 60%Z
  /\ r_verdict (analyze_comment ascii_runtime sample_user123) <> real.
Proof.
  repeat split; vm_compute; discriminate.
Qed.

(** C4, amended: on a comment with empty text, empty author and no likes,
    whatever its other fields, two rules adjust the score: the
    short-or-generic rule (an empty text has length 0, at most 4) and the
    zero-likes rule.  The score is 44, the verdict likely-real, and the
    reasons are the short-or-generic one and the unknown-language one. *)
Theorem empty_comment_scenario (R : Runtime)
        (publishedAt platform : option str) :
  let res := analyze_comment R (empty_comment publishedAt platform) in
  r_score res = 44%Z
  /\ r_verdict res = likely_real
  /\ r_reasons res = [msg_short; msg_lang]
  /\ r_language res = lit "unknown"
  /\ fires R (empty_comment publishedAt platform) rule_short = true
  /\ fires R (empty_comment publishedAt platform) rule_nolikes = true.
Proof.
  repeat split; vm_compute; reflexivity.
Qed.

(** The scenario as worded (only the zero-likes rule, score 56) fails. *)
Lemma empty_comment_not_56_counterexample :
  r_score (analyze_comment ascii_runtime (empty_comment None None)) <> 56%Z
  /\ fires ascii_runtime (empty_comment None None) rule_short = true.
Proof.
  split; vm_compute; [discriminate | reflexivity].
Qed.

(** ** The fields copied into the result *)

(** C7, amended: of the five fields of a comment that has them all,
    [publishedAt] and [likeCount] reach the result unchanged; [text] and
    [author] reach it stripped of surrounding whitespace, an author that is
    then empty becoming "Unknown"; [platform] reaches it unchanged unless it
    is empty, when it becomes "unknown". *)
Theorem fields_copied (R : Runtime) (author text publishedAt platform : str)
        (likeCount : Z) :
  let res := analyze_comment R
               {| c_author := Some author; c_text := Some text;
                  c_publishedAt := Some publishedAt;
                  c_likeCount := Some likeCount;
                  c_platform := Some platform |} in
  r_publishedAt res = publishedAt
  /\ r_likeCount res = likeCount
  /\ r_text res = strip R text
  /\ r_author res = match strip R author with
                    | [] => lit "Unknown"
                    | a :: t => strip R author
                    end
  /\ r_platform res = match platform with
                      | [] => lit "unknown"
                      | a :: t => platform
                      end.
Proof.
  cbv zeta. unfold analyze_comment. cbn [r_publishedAt r_likeCount r_text
    r_author r_platform c_author c_text c_publishedAt c_likeCount c_platform
    get_default get_int].
  assert (Hget : forall s : str, get_or (Some s) [] = s)
    by (intros [| a t]; reflexivity).
  rewrite !Hget.
  split; [reflexivity |]. split; [reflexivity |]. split; [reflexivity |].
  split.
  - destruct (strip R author); reflexivity.
  - destruct platform; reflexivity.
Qed.

(** The claim as worded fails: a text with a leading blank is not copied
    unchanged. *)
Lemma fields_not_unchanged_counterexample :
  Some (r_text (analyze_comment ascii_runtime padded_comment))
  <> c_text padded_comment.
Proof.
  vm_compute. discriminate.
Qed.

(** ** The long-number rule *)

Section Matcher.
Variable p : char -> bool.

Lemma last_char_cons (prev : option char) (c : char) (s : str) :
  last_char prev (c :: s) = last_char (Some c) s.
Proof. reflexivity. Qed.

Lemma run_ends_reads (run post : str) :
  forall prev, forallb p run = true ->
  In (last_char prev run, post) (run_ends p prev (run ++ post)).
Proof.
  induction run as [| c run IH]; intros prev Hall.
  - destruct post; simpl; auto.
  - simpl in Hall. apply andb_prop in Hall as [Hc Hall].
    cbn [app run_ends]. rewrite Hc, last_char_cons. right. now apply IH.
Qed.

Lemma rep_ends_reads (n : nat) :
  forall (run post : str) prev,
    n <= length run -> forallb p run = true ->
    In (last_char prev run, post) (rep_ends n p prev (run ++ post)).
Proof.
  induction n as [| n IH]; intros run post prev Hlen Hall.
  - now apply run_ends_reads.
  - destruct run as [| c run]; [simpl in Hlen; lia |].
    simpl in Hall. apply andb_prop in Hall as [Hc Hall].
    cbn [app rep_ends]. rewrite Hc, last_char_cons.
    apply IH; [simpl in Hlen; lia | exact Hall].
Qed.

(** After a non-empty run of [p], the character before the cursor is
    one of [p]. *)
Lemma last_char_of_run (run : str) :
  forall prev, run <> [] -> forallb p run = true ->
  opt_test p (last_char prev run) = true.
Proof.
  induction run as [| c run IH]; intros prev Hne Hall; [congruence |].
  simpl in Hall. apply andb_prop in Hall as [Hc Hall].
  rewrite last_char_cons. destruct run as [| d run].
  - exact Hc.
  - apply IH; [discriminate | exact Hall].
Qed.

Lemma run_ends_inv (s : str) :
  forall prev o post,
    In (o, post) (run_ends p prev s) ->
    exists run, s = run ++ post /\ forallb p run = true
                /\ o = last_char prev run.
Proof.
  induction s as [| c t IH]; intros prev o post H.
  - destruct H as [H | []]. injection H as <- <-.
    exists []. repeat split.
  - cbn [run_ends] in H. destruct H as [H | H].
    + injection H as <- <-. exists []. repeat split.
    + destruct (p c) eqn:Hc; [| destruct H].
      apply IH in H as (run & -> & Hall & ->).
      exists (c :: run). cbn [forallb]. rewrite Hc. repeat split.
      exact Hall.
Qed.

Lemma rep_ends_inv (n : nat) :
  forall (s : str) prev o post,
    In (o, post) (rep_ends n p prev s) ->
    exists run, s = run ++ post /\ n <= length run
                /\ forallb p run = true /\ o = last_char prev run.
Proof.
  induction n as [| n IH]; intros s prev o post H.
  - apply run_ends_inv in H as (run & -> & Hall & ->).
    exists run. repeat split; [lia | exact Hall].
  - cbn [rep_ends] in H. destruct s as [| c t]; [destruct H |].
    destruct (p c) eqn:Hc; [| destruct H].
    apply IH in H as (run & -> & Hlen & Hall & ->).
    exists (c :: run). cbn [forallb length]. rewrite Hc.
    repeat split; [lia | exact Hall].
Qed.
End Matcher.

Lemma matches_at_In (r : regex) (k k' : cursor) :
  In k' (ends r k) -> matches_at r k = true.
Proof.
  unfold matches_at. destruct (ends r k); [intros [] | reflexivity].
Qed.

Lemma search_from_app (r : regex) (pre s : str) :
  forall prev, matches_at r (last_char prev pre, s) = true ->
  search_from r prev (pre ++ s) = true.
Proof.
  induction pre as [| c pre IH]; intros prev H.
  - simpl in *. destruct s; simpl; rewrite H; reflexivity.
  - cbn [app search_from]. rewrite last_char_cons in H.
    rewrite (IH _ H). apply orb_true_r.
Qed.

Lemma search_from_inv (r : regex) (s : str) :
  forall prev, search_from r prev s = true ->
  exists pre rest, s = pre ++ rest
                   /\ matches_at r (last_char prev pre, rest) = true.
Proof.
  induction s as [| c t IH]; intros prev H; cbn [search_from] in H;
    apply orb_prop in H as [H | H].
  - exists [], []. split; [reflexivity | exact H].
  - discriminate.
  - exists [], (c :: t). split; [reflexivity | exact H].
  - apply IH in H as (pre & rest & -> & H).
    exists (c :: pre), rest. split; [reflexivity | exact H].
Qed.

Section LongNumber.
Variable R : Runtime.

Lemma isdecimal_isword (c : char) : isdecimal R c = true -> isword R c = true.
Proof.
  intros H. unfold isword. rewrite H. now rewrite orb_true_r.
Qed.

(** [\b\d{7,}\b] finds every delimited run of seven digits or more. *)
Lemma longnum_found (text pre run post : str) :
  has_run (isdecimal R) 7 text pre run post ->
  delimited (isword R) pre post ->
  re_search (longnum_re R) text = true.
Proof.
  intros (-> & Hlen & Hall) (Hpre & Hpost).
  unfold re_search. apply search_from_app.
  destruct run as [| c run]; [simpl in Hlen; lia |].
  assert (Hlast : opt_test (isword R)
                    (last_char (last_char None pre) (c :: run)) = true).
  { pose proof (@last_char_of_run (isdecimal R) (c :: run)
                  (last_char None pre)) as H.
    destruct (last_char (last_char None pre) (c :: run)) as [d |];
      simpl in *.
    - apply isdecimal_isword. apply H; [discriminate | exact Hall].
    - apply H; [discriminate | exact Hall]. }
  apply matches_at_In
    with (k' := (last_char (last_char None pre) (c :: run), post)).
  unfold longnum_re. cbn [ends fst snd].
  assert (Hc : isword R c = true).
  { apply isdecimal_isword. simpl in Hall.
    now apply andb_prop in Hall as [Hc _]. }
  cbn [app hd_error opt_test]. rewrite Hpre, Hc. cbn [xorb flat_map].
  rewrite app_nil_r. apply in_flat_map.
  exists (last_char (last_char None pre) (c :: run), post). split.
  - apply (@rep_ends_reads (isdecimal R) 7 (c :: run) post); assumption.
  - cbn [ends fst snd]. rewrite Hlast, Hpost. simpl. now left.
Qed.

(** and nothing else. *)
Lemma longnum_match_inv (prev : option char) (s : str) :
  matches_at (longnum_re R) (prev, s) = true ->
  exists run post,
    s = run ++ post /\ 7 <= length run /\ forallb (isdecimal R) run = true
    /\ opt_test (isword R) prev = false
    /\ opt_test (isword R) (hd_error post) = false.
Proof.
  unfold matches_at, longnum_re. cbn [ends fst snd].
  destruct (xorb (opt_test (isword R) prev)
              (opt_test (isword R) (hd_error s))) eqn:Hb;
    [| discriminate].
  cbn [flat_map fst snd]. rewrite app_nil_r.
  destruct (flat_map _ _) as [| k' rest] eqn:Hfm; [discriminate |].
  intros _.
  assert (Hin : In k' (k' :: rest)) by now left.
  rewrite <- Hfm in Hin. apply in_flat_map in Hin as ([o post] & Hrep & Hk).
  cbn [ends fst snd] in Hk.
  destruct (xorb (opt_test (isword R) o)
              (opt_test (isword R) (hd_error post))) eqn:Hb';
    [| destruct Hk].
  apply rep_ends_inv in Hrep as (run & -> & Hlen & Hall & ->).
  destruct run as [| c run]; [simpl in Hlen; lia |].
  exists (c :: run), post.
  split; [reflexivity |]. split; [exact Hlen |]. split; [exact Hall |].
  assert (Hlast : opt_test (isword R) (last_char prev (c :: run)) = true).
  { pose proof (@last_char_of_run (isdecimal R) (c :: run) prev) as H.
    destruct (last_char prev (c :: run)) as [d |]; simpl in *.
    - apply isdecimal_isword. apply H; [discriminate | exact Hall].
    - apply H; [discriminate | exact Hall]. }
  rewrite Hlast in Hb'. cbn [app hd_error opt_test] in Hb.
  assert (Hc : isword R c = true).
  { apply isdecimal_isword. simpl in Hall.
    now apply andb_prop in Hall as [Hc _]. }
  rewrite Hc in Hb. split.
  - destruct (opt_test (isword R) prev); [discriminate | reflexivity].
  - destruct (opt_test (isword R) (hd_error post));
      [discriminate | reflexivity].
Qed.

Lemma longnum_search_iff (text : str) :
  re_search (longnum_re R) text = true
  <-> exists pre run post,
        has_run (isdecimal R) 7 text pre run post
        /\ delimited (isword R) pre post.
Proof.
  split.
  - intros H. apply search_from_inv in H as (pre & rest & -> & H).
    apply longnum_match_inv in H as (run & post & -> & Hlen & Hall & Hp & Hq).
    exists pre, run, post. repeat split; assumption.
  - intros (pre & run & post & Hrun & Hdel).
    exact (longnum_found Hrun Hdel).
Qed.

Lemma explain_In (f : rule -> bool) (r : rule) (m : str) (l : list rule) :
  f r = true -> In m (reason r) -> In r l -> In m (explain f l).
Proof.
  intros Hf Hm. induction l as [| x l IH]; intros Hin; [destruct Hin |].
  cbn [explain]. apply in_or_app. destruct Hin as [-> | Hin].
  - left. now rewrite Hf.
  - right. now apply IH.
Qed.
End LongNumber.

(** C5, amended: when the trimmed text contains a run of seven or more
    decimal digits that is delimited, that is neither preceded nor followed
    by a word character (letter, digit or underscore), the long-number rule
    fires: it takes 10 off the score before the clamp and its reason is among
    the reasons. *)
Theorem long_number_rule (R : Runtime) (c : Comment) (pre run post : str) :
  has_run (isdecimal R) 7 (strip R (get_or (c_text c) [])) pre run post ->
  delimited (isword R) pre post ->
  fires R c rule_longnum = true
  /\ In msg_longnum (r_reasons (analyze_comment R c))
  /\ (raw_score R c
      = 60 + total (fires R c) (others rule_longnum) - 10)%Z.
Proof.
  intros Hrun Hdel.
  assert (Hf : fires R c rule_longnum = true).
  { unfold fires. cbv zeta. cbn [trigger].
    exact (longnum_found Hrun Hdel). }
  split; [exact Hf |]. split.
  - rewrite reasons_table.
    apply explain_In with (r := rule_longnum);
      [exact Hf | now left | apply all_rules_complete].
  - rewrite raw_score_table.
    change (others rule_longnum) with
      [rule_url; rule_punct; rule_emoji; rule_short; rule_promo;
       rule_nolikes; rule_likes; rule_digits; rule_shortname; rule_bot;
       rule_lang; rule_unexpected].
    cbn [total all_rules]. rewrite Hf. cbn [delta]. lia.
Qed.

(** The delimited runs are exactly the cases where the rule fires. *)
Lemma longnum_fires_iff (R : Runtime) (c : Comment) :
  fires R c rule_longnum = true
  <-> exists pre run post,
        has_run (isdecimal R) 7 (strip R (get_or (c_text c) [])) pre run post
        /\ delimited (isword R) pre post.
Proof.
  unfold fires. cbv zeta. cbn [trigger]. apply longnum_search_iff.
Qed.

Lemma long_number_rule_witness :
  fires ascii_runtime sample_spambot rule_longnum = true
  /\ In msg_longnum (r_reasons (analyze_comment ascii_runtime sample_spambot))
  /\ (raw_score ascii_runtime sample_spambot
      = 60 + total (fires ascii_runtime sample_spambot) (others rule_longnum)
        - 10)%Z.
Proof.
  apply (@long_number_rule ascii_runtime sample_spambot
           (lit "Call now ") (lit "1234567890") (lit " for deals!!!")).
  - repeat split; [simpl; lia].
  - split; reflexivity.
Defined.

(** The claim as worded fails: in "abc1234567" a run of seven digits follows
    a letter, and the rule does not fire. *)
Lemma long_number_glued_counterexample :
  has_run (isdecimal ascii_runtime) 7
    (strip ascii_runtime (get_or (c_text glued_digits_comment) []))
    (lit "abc") (lit "1234567") []
  /\ fires ascii_runtime glued_digits_comment rule_longnum = false
  /\ r_reasons (analyze_comment ascii_runtime glued_digits_comment) = []
  /\ raw_score ascii_runtime glued_digits_comment = 60%Z.
Proof.
  split; [| repeat split; vm_compute; reflexivity].
  repeat split; [simpl; lia].
Qed.

(** ** The ordering of the report *)

Section SortingFacts.
Variable A : Type.
Variable key : A -> Z.

Lemma insert_by_perm (x : A) (l : list A) :
  Permutation (insert_by key x l) (x :: l).
Proof.
  induction l as [| y t IH]; cbn [insert_by].
  - apply Permutation_refl.
  - destruct (Z.leb (key x) (key y)).
    + apply Permutation_refl.
    + eapply perm_trans; [apply perm_skip, IH | apply perm_swap].
Qed.

Lemma sorted_by_perm (l : list A) : Permutation (sorted_by key l) l.
Proof.
  induction l as [| x t IH]; cbn [sorted_by].
  - apply perm_nil.
  - eapply perm_trans; [apply insert_by_perm | apply perm_skip, IH].
Qed.

Lemma insert_by_ascending (x : A) (l : list A) :
  ascending key l -> ascending key (insert_by key x l).
Proof.
  unfold ascending. induction l as [| y t IH]; intros Hs; cbn [insert_by].
  - constructor; constructor.
  - apply StronglySorted_inv in Hs as [Ht Hy].
    destruct (Z.leb_spec (key x) (key y)) as [Hle | Hgt].
    + constructor; [constructor; assumption |].
      constructor; [exact Hle |].
      eapply Forall_impl; [| exact Hy]. cbn. intros z Hz. lia.
    + constructor; [apply IH, Ht |].
      apply (Permutation_Forall (Permutation_sym (insert_by_perm x t))).
      constructor; [lia | exact Hy].
Qed.

Lemma sorted_by_ascending (l : list A) : ascending key (sorted_by key l).
Proof.
  induction l as [| x t IH]; cbn [sorted_by].
  - constructor.
  - now apply insert_by_ascending.
Qed.

Lemma insert_by_with_key (k : Z) (x : A) (l : list A) :
  with_key key k (insert_by key x l) = with_key key k (x :: l).
Proof.
  unfold with_key. induction l as [| y t IH]; cbn [insert_by].
  - reflexivity.
  - destruct (Z.leb_spec (key x) (key y)) as [Hle | Hgt]; [reflexivity |].
    cbn [filter] in *. rewrite IH.
    destruct (Z.eqb_spec (key x) k), (Z.eqb_spec (key y) k);
      try reflexivity; lia.
Qed.

Lemma sorted_by_with_key (k : Z) (l : list A) :
  with_key key k (sorted_by key l) = with_key key k l.
Proof.
  induction l as [| x t IH]; cbn [sorted_by]; [reflexivity |].
  rewrite insert_by_with_key. unfold with_key in *. cbn [filter].
  now rewrite IH.
Qed.

Lemma with_key_head (x : A) (l : list A) :
  with_key key (key x) (x :: l) = x :: with_key key (key x) l.
Proof.
  unfold with_key. cbn [filter]. now rewrite Z.eqb_refl.
Qed.

Lemma with_key_In (k : Z) (x : A) (l : list A) :
  In x (with_key key k l) -> In x l /\ key x = k.
Proof.
  unfold with_key. rewrite filter_In. intros [H1 H2]. split; [exact H1 |].
  now apply Z.eqb_eq.
Qed.

(** An ascending rearrangement that keeps the order of equal keys is
    unique, so any stable ascending sort returns [sorted_by]. *)
Lemma stable_ascending_unique (l1 : list A) :
  forall l2 : list A,
    ascending key l1 -> ascending key l2 ->
    (forall k, with_key key k l1 = with_key key k l2) ->
    l1 = l2.
Proof.
  unfold ascending.
  induction l1 as [| x t1 IH]; intros l2 H1 H2 Hk.
  - destruct l2 as [| y t2]; [reflexivity |].
    specialize (Hk (key y)). rewrite with_key_head in Hk. discriminate.
  - destruct l2 as [| y t2].
    + specialize (Hk (key x)). rewrite with_key_head in Hk. discriminate.
    + apply StronglySorted_inv in H1 as [Ht1 Hx].
      apply StronglySorted_inv in H2 as [Ht2 Hy].
      rewrite Forall_forall in Hx, Hy.
      assert (Hxy : key x = key y).
      { pose proof (Hk (key x)) as Hkx. pose proof (Hk (key y)) as Hky.
        rewrite with_key_head in Hkx, Hky.
        assert (Hin1 : In x (with_key key (key x) (y :: t2)))
          by (rewrite <- Hkx; now left).
        assert (Hin2 : In y (with_key key (key y) (x :: t1)))
          by (rewrite Hky; now left).
        apply with_key_In in Hin1 as [[-> | Hin1] _]; [reflexivity |].
        apply with_key_In in Hin2 as [[-> | Hin2] _]; [reflexivity |].
        pose proof (Hy _ Hin1). pose proof (Hx _ Hin2). lia. }
      assert (Heq : x = y).
      { pose proof (Hk (key x)) as Hkx. rewrite with_key_head in Hkx.
        rewrite Hxy in Hkx at 2. rewrite with_key_head in Hkx.
        congruence. }
      subst y. f_equal. apply IH; [assumption | assumption |].
      intros k. specialize (Hk k). unfold with_key in *.
      cbn [filter] in Hk. destruct (Z.eqb (key x) k); congruence.
Qed.

Lemma sorted_by_unique (l l' : list A) :
  ascending key l' ->
  (forall k, with_key key k l' = with_key key k l) ->
  l' = sorted_by key l.
Proof.
  intros Hasc Hk. apply stable_ascending_unique.
  - exact Hasc.
  - apply sorted_by_ascending.
  - intros k. now rewrite Hk, sorted_by_with_key.
Qed.
End SortingFacts.

(** C9: the view handed to the report is the sequence of results sorted by
    score, ascending, by a stable sort: for every sequence of results,
    [analysis_sorted] is a rearrangement of the sequence, its scores never
    decrease, and the results of any one score keep their original relative
    order. *)
Theorem report_order (results : list AnalysisResult) :
  let view := analysis_sorted results in
  Permutation view results
  /\ ascending r_score view
  /\ (forall score, with_key r_score score view
                    = with_key r_score score results).
Proof.
  cbv zeta. unfold analysis_sorted. split; [| split].
  - apply sorted_by_perm.
  - apply sorted_by_ascending.
  - intros score. apply sorted_by_with_key.
Qed.

(** [main] sorts the analysis of what it collected: one result per
    comment. *)
Lemma analysis_sorted_is_view (R : Runtime) (collected : list Comment) :
  length (analysis_sorted (analysis R collected)) = length collected.
Proof.
  unfold analysis_sorted.
  rewrite (Permutation_length (sorted_by_perm r_score (analysis R collected))).
  unfold analysis. apply length_map.
Qed.

(** ** The CSV reader and the like count *)

Section ReaderFacts.
Variable R : Runtime.

(** The headerless branch guards [int] with [isdigit]: a fourth field
    that is missing or not all digits gives 0 likes. *)
Lemma headerless_likes_default (ln : str) (c : Comment) :
  headerless_line R ln = Appended c ->
  str_isdigit R (nth 3 (split_on 44%N (strip R ln)) []) = false ->
  c_likeCount c = Some 0%Z.
Proof.
  unfold headerless_line. cbv zeta. intros H Hd. rewrite Hd in H.
  rewrite andb_false_r in H.
  destruct (Nat.ltb (length (split_on 44%N (strip R ln))) 2);
    [discriminate |].
  injection H as <-. reflexivity.
Qed.

(** The headered branch gives 0 likes when both columns are missing or
    empty. *)
Lemma headered_likes_missing (r : row) :
  or_else (row_get (lit "likeCount") r) (row_get (lit "likes") r) = None ->
  exists c, headered_row R r = Appended c /\ c_likeCount c = Some 0%Z.
Proof.
  intros H. unfold headered_row. cbv zeta. rewrite H.
  eexists. split; reflexivity.
Qed.

Example headerless_bad_likes :
  exists c, headerless_line R (lit "Bob,hello,2023-01-01,abc,youtube")
            = Appended c
            /\ c_likeCount c = Some 0%Z.
Proof. eexists. split; vm_compute; reflexivity. Qed.
End ReaderFacts.

(** C8, at the failing input: a headered row whose [likeCount] column holds
    "abc" makes [int] raise; the row gives no comment, the loop is left, and
    the rows after it are lost as well. *)
Theorem headered_bad_likes_raises (R : Runtime) :
  headered_row R bad_row = Raised
  /\ read_csv R (Headered [bad_row]) = ([], true)
  /\ read_comments_csv R (Headered [good_row; bad_row; good_row])
     = read_comments_csv R (Headered [good_row])
  /\ length (read_comments_csv R (Headered [good_row; bad_row; good_row])) = 1.
Proof.
  repeat split; vm_compute; reflexivity.
Qed.

(** * Further properties of the analyzer *)

(** ** Reasons and fired rules *)

Lemma explain_In_inv (f : rule -> bool) (m : str) (l : list rule) :
  In m (explain f l) ->
  exists r, In r l /\ f r = true /\ In m (reason r).
Proof.
  induction l as [| x l IH]; cbn [explain]; [intros [] |].
  intros H. apply in_app_or in H as [H | H].
  - destruct (f x) eqn:Hx; [| destruct H].
    exists x. repeat split; [now left | exact Hx | exact H].
  - destruct (IH H) as (r & Hin & Hr & Hm).
    exists r. repeat split; [now right | exact Hr | exact Hm].
Qed.

(** No two rules share a reason. *)
Lemma reason_injective (r r' : rule) (m : str) :
  In m (reason r) -> In m (reason r') -> r = r'.
Proof.
  destruct r, r'; cbn [reason In]; intros H H'; try reflexivity;
    try contradiction;
    destruct H as [H | []], H' as [H' | []]; subst m; vm_compute in H';
    discriminate.
Qed.

(** X1: a rule's reason is among the reasons of the result exactly when the
    rule fired. *)
Theorem reason_iff_fired (R : Runtime) (c : Comment) (r : rule) (m : str) :
  In m (reason r) ->
  (In m (r_reasons (analyze_comment R c)) <-> fires R c r = true).
Proof.
  intros Hm. rewrite reasons_table. split.
  - intros H. apply explain_In_inv in H as (r' & _ & Hr' & Hm').
    now rewrite (reason_injective r r' m Hm Hm').
  - intros H. apply explain_In with (r := r);
      [exact H | exact Hm | apply all_rules_complete].
Qed.

Lemma reason_iff_fired_witness :
  In msg_digits (r_reasons (analyze_comment ascii_runtime sample_user123))
  <-> fires ascii_runtime sample_user123 rule_digits = true.
Proof.
  apply (@reason_iff_fired ascii_runtime sample_user123 rule_digits
           msg_digits).
  simpl. left. reflexivity.
Defined.

(** X2: the score is the clamp of 60 plus the adjustments of the rules that
    fired, and the reasons are theirs in rule order: the order of the [if]s
    matters to the reasons only. *)
Theorem score_is_clamped_sum (R : Runtime) (c : Comment) :
  r_score (analyze_comment R c)
  = clamp (60 + total (fires R c) all_rules)
  /\ r_reasons (analyze_comment R c) = explain (fires R c) all_rules.
Proof.
  split.
  - rewrite score_is_clamped_raw, raw_score_table. reflexivity.
  - apply reasons_table.
Qed.

(** ** Rules that exclude each other *)

Section MinLength.
Lemma ends_consumes (r : regex) :
  forall k k', In k' (ends r k) ->
  length (snd k') + min_len r <= length (snd k).
Proof.
  induction r as [| p | w | r1 IH1 r2 IH2 | r1 IH1 r2 IH2 | r1 IH1 | n p
                 | p n]; intros [prev s] k' H; cbn [ends fst snd min_len] in *.
  - destruct H as [<- | []]. simpl. lia.
  - destruct s as [| c t]; [destruct H |].
    destruct (p c); [| destruct H]. destruct H as [<- | []]. simpl. lia.
  - destruct (xorb _ _); [| destruct H]. destruct H as [<- | []]. simpl. lia.
  - apply in_flat_map in H as (k1 & H1 & H2).
    apply IH1 in H1. apply IH2 in H2. simpl in H1. lia.
  - apply in_app_or in H as [H | H].
    + apply IH1 in H. simpl in H. lia.
    + apply IH2 in H. simpl in H. lia.
  - apply in_app_or in H as [H | H].
    + apply IH1 in H. simpl in H. lia.
    + destruct H as [<- | []]. simpl. lia.
  - destruct k' as [o post].
    apply rep_ends_inv in H as (run & -> & Hlen & _ & _).
    cbn [snd]. rewrite length_app. lia.
  - destruct s as [| c t]; [destruct H |].
    destruct (p c); [| destruct H]. destruct k' as [o post].
    apply rep_ends_inv in H as (run & -> & Hlen & _ & _).
    cbn [snd length]. rewrite length_app. lia.
Qed.

(** A pattern is not found in a text shorter than its shortest match. *)
Lemma re_search_min_len (r : regex) (s : str) :
  re_search r s = true -> min_len r <= length s.
Proof.
  intros H. apply search_from_inv in H as (pre & rest & -> & H).
  unfold matches_at in H.
  destruct (ends r (last_char None pre, rest)) as [| k' l] eqn:He;
    [discriminate |].
  assert (Hin : In k' (ends r (last_char None pre, rest)))
    by (rewrite He; now left).
  apply ends_consumes in Hin. cbn [snd] in Hin. rewrite length_app. lia.
Qed.
End MinLength.

Lemma count_class_le (p : char -> bool) (s : str) :
  count_class p s <= length s.
Proof. unfold count_class. apply filter_length_le. Qed.

(** X3: some rules never fire together: the zero-likes rule and the
    high-likes rule; the unknown-language rule and the unexpected-language
    rule; the short-username rule and either the author-digits rule or the
    bot-keyword rule. *)
Theorem exclusive_rules (R : Runtime) (c : Comment) :
  (fires R c rule_nolikes = true -> fires R c rule_likes = false)
  /\ (fires R c rule_lang = true -> fires R c rule_unexpected = false)
  /\ (fires R c rule_shortname = true -> fires R c rule_digits = false)
  /\ (fires R c rule_shortname = true -> fires R c rule_bot = false).
Proof.
  unfold fires. cbv zeta. cbn [trigger].
  set (author := strip R (get_or (c_author c) [])).
  repeat split.
  - intros H. apply Z.eqb_eq in H. rewrite H. reflexivity.
  - intros H. rewrite H. reflexivity.
  - intros H. apply andb_prop in H as [_ H]. apply andb_prop in H as [H _].
    apply Nat.leb_le in H.
    apply andb_false_intro2. apply orb_false_intro.
    + apply Nat.leb_gt. pose proof (count_class_le (isdigit R) author). lia.
    + destruct (re_search (generic_user_re R) author) eqn:Hs;
        [| reflexivity].
      apply re_search_min_len in Hs.
      change (min_len (generic_user_re R)) with 6 in Hs. lia.
  - intros H. apply andb_prop in H as [_ H]. apply andb_prop in H as [H _].
    apply Nat.leb_le in H.
    apply andb_false_intro2.
    destruct (re_search (bot_re R) author) eqn:Hs; [| reflexivity].
    apply re_search_min_len in Hs.
    change (min_len (bot_re R)) with 3 in Hs. lia.
Qed.

(** ** The verdict follows the score *)

Lemma verdict_of_monotone (s1 s2 : Z) :
  (s1 <= s2)%Z ->
  verdict_rank (verdict_of s1) <= verdict_rank (verdict_of s2).
Proof.
  intros H. unfold verdict_of.
  destruct (Z.leb_spec 60 s1), (Z.leb_spec 40 s1), (Z.leb_spec 20 s1),
    (Z.leb_spec 60 s2), (Z.leb_spec 40 s2), (Z.leb_spec 20 s2);
    cbn [verdict_rank]; lia.
Qed.

(** X4: a comment with the higher score never has the worse verdict: in the
    order fake, likely-fake, likely-real, real the verdict is monotone in
    the score. *)
Theorem verdict_monotone (R : Runtime) (c1 c2 : Comment) :
  (r_score (analyze_comment R c1) <= r_score (analyze_comment R c2))%Z ->
  verdict_rank (r_verdict (analyze_comment R c1))
  <= verdict_rank (r_verdict (analyze_comment R c2)).
Proof.
  intros H. now apply verdict_of_monotone.
Qed.

Lemma verdict_monotone_witness :
  verdict_rank (r_verdict (analyze_comment ascii_runtime sample_spambot))
  <= verdict_rank (r_verdict (analyze_comment ascii_runtime sample_user123)).
Proof.
  apply (@verdict_monotone ascii_runtime sample_spambot sample_user123).
  vm_compute. discriminate.
Defined.

(** ** Stripping and analyzing again *)

Section Strip.
Variable R : Runtime.

Lemma lstrip_no_lead (s : str) : no_lead R (lstrip R s).
Proof.
  induction s as [| c t IH]; cbn [lstrip]; [exact I |].
  destruct (isspace R c) eqn:Hc; [exact IH | exact Hc].
Qed.

Lemma lstrip_fixed (s : str) : no_lead R s -> lstrip R s = s.
Proof.
  destruct s as [| c t]; cbn [no_lead lstrip]; [reflexivity |].
  now intros ->.
Qed.

Lemma lstrip_app_last (u : str) (c : char) :
  isspace R c = false -> lstrip R (u ++ [c]) = lstrip R u ++ [c].
Proof.
  intros Hc. induction u as [| d u IH]; cbn [app lstrip].
  - now rewrite Hc.
  - destruct (isspace R d); [exact IH | reflexivity].
Qed.

Lemma rstrip_no_trail (s : str) : no_lead R (rev (rstrip R s)).
Proof.
  unfold rstrip. rewrite rev_involutive. apply lstrip_no_lead.
Qed.

Lemma rstrip_fixed (s : str) : no_lead R (rev s) -> rstrip R s = s.
Proof.
  intros H. unfold rstrip. rewrite (@lstrip_fixed (rev s) H). apply rev_involutive.
Qed.

Lemma rstrip_keeps_lead (s : str) : no_lead R s -> no_lead R (rstrip R s).
Proof.
  destruct s as [| c t]; [intros _; exact I |].
  cbn [no_lead]. intros Hc. unfold rstrip. cbn [rev].
  rewrite (@lstrip_app_last (rev t) c Hc), rev_app_distr. exact Hc.
Qed.

Lemma strip_no_lead (s : str) : no_lead R (strip R s).
Proof. apply rstrip_keeps_lead, lstrip_no_lead. Qed.

Lemma strip_no_trail (s : str) : no_lead R (rev (strip R s)).
Proof. apply rstrip_no_trail. Qed.

Lemma strip_fixed (s : str) :
  no_lead R s -> no_lead R (rev s) -> strip R s = s.
Proof.
  intros H1 H2. unfold strip. rewrite (@lstrip_fixed s H1).
  now apply rstrip_fixed.
Qed.

Lemma strip_idempotent (s : str) : strip R (strip R s) = strip R s.
Proof.
  apply strip_fixed; [apply strip_no_lead | apply strip_no_trail].
Qed.
End Strip.

Lemma total_ext (f g : rule -> bool) (l : list rule) :
  (forall r, f r = g r) -> total f l = total g l.
Proof.
  intros H. induction l as [| x l IH]; cbn [total]; [reflexivity |].
  now rewrite H, IH.
Qed.

Lemma explain_ext (f g : rule -> bool) (l : list rule) :
  (forall r, f r = g r) -> explain f l = explain g l.
Proof.
  intros H. induction l as [| x l IH]; cbn [explain]; [reflexivity |].
  now rewrite H, IH.
Qed.

(** The name "Unknown" triggers no author rule, like the empty name it
    replaces. *)
Lemma rules_unknown_author (R : Runtime) (text : str) (like : Z)
      (platform lang : str) :
  rules R text (lit "Unknown") like platform lang
  = rules R text [] like platform lang.
Proof.
  rewrite !rules_table.
  assert (H : forall r,
             trigger R text (lit "Unknown") like platform lang r
             = trigger R text [] like platform lang r).
  { intros r; destruct r; cbn [trigger]; try reflexivity;
      vm_compute; reflexivity. }
  now rewrite (total_ext _ _ all_rules H), (explain_ext _ _ all_rules H).
Qed.

(** X5: in every result the author and the platform are non-empty and
    neither the text nor the author starts or ends with whitespace. *)
Theorem result_normal_form (R : Runtime) (c : Comment) :
  let res := analyze_comment R c in
  r_author res <> [] /\ r_platform res <> []
  /\ no_lead R (r_text res) /\ no_lead R (rev (r_text res))
  /\ no_lead R (r_author res) /\ no_lead R (rev (r_author res)).
Proof.
  cbv zeta. unfold analyze_comment. cbv zeta.
  cbn [r_author r_platform r_text].
  split; [| split; [| split; [| split; [| split]]]].
  - destruct (strip R (get_or (c_author c) [])); discriminate.
  - destruct (c_platform c) as [[| a t] |]; discriminate.
  - apply strip_no_lead.
  - apply strip_no_trail.
  - pose proof (strip_no_lead R (get_or (c_author c) [])) as H.
    destruct (strip R (get_or (c_author c) [])); [vm_compute |];
      [reflexivity | exact H].
  - pose proof (strip_no_trail R (get_or (c_author c) [])) as H.
    destruct (strip R (get_or (c_author c) [])); [vm_compute |];
      [reflexivity | exact H].
Qed.

(** Under one detector a result is a fixed point of the analysis. *)
Lemma reanalyze_same_detector (R : Runtime) (c : Comment) :
  analyze_comment R (as_comment (analyze_comment R c)) = analyze_comment R c.
Proof.
  unfold analyze_comment at 1. cbv zeta.
  cbn [as_comment c_text c_author c_likeCount c_platform c_publishedAt
       get_int get_default].
  assert (Hget : forall s : str, get_or (Some s) [] = s)
    by (intros [| a t]; reflexivity).
  rewrite !Hget.
  assert (Htext : strip R (r_text (analyze_comment R c))
                  = r_text (analyze_comment R c))
    by apply strip_idempotent.
  assert (Hplat : get_or (Some (r_platform (analyze_comment R c)))
                    (lit "unknown")
                  = r_platform (analyze_comment R c)).
  { unfold analyze_comment. cbv zeta. cbn [r_platform].
    destruct (c_platform c) as [[| a t] |]; reflexivity. }
  rewrite Htext, Hplat.
  unfold analyze_comment. cbv zeta.
  cbn [r_text r_author r_platform r_likeCount r_publishedAt].
  destruct (strip R (get_or (c_author c) [])) as [| a t] eqn:Ha.
  - assert (Hu : strip R (lit "Unknown") = lit "Unknown")
      by (vm_compute; reflexivity).
    rewrite Hu, rules_unknown_author. reflexivity.
  - rewrite <- Ha, strip_idempotent, Ha. reflexivity.
Qed.

(** The tables of [with_detect R d] are those of [R]: the analysis differs
    only where the detector is asked. *)
Lemma analyze_with_detect (R : Runtime) (d : str -> option str)
      (c : Comment) :
  d (strip R (get_or (c_text c) [])) = detect R (strip R (get_or (c_text c) []))
  -> analyze_comment (with_detect R d) c = analyze_comment R c.
Proof.
  intros Hd. unfold analyze_comment. cbv zeta.
  change (strip (with_detect R d)) with (strip R).
  change (rules (with_detect R d)) with (rules R).
  assert (Hl : detect_language (with_detect R d)
                 (strip R (get_or (c_text c) []))
               = detect_language R (strip R (get_or (c_text c) []))).
  { unfold detect_language. cbn [detect with_detect]. now rewrite Hd. }
  destruct (strip R (get_or (c_text c) [])) as [| a t] eqn:Ht;
    [reflexivity |].
  now rewrite Hl.
Qed.

(** X6: a result, read as a comment and analyzed again, gives the same
    result, provided the detector, which is not seeded, answers on the
    trimmed text what it answered the first time.  The second call has its
    own detector [d]. *)
Theorem analyze_again (R : Runtime) (d : str -> option str) (c : Comment) :
  d (r_text (analyze_comment R c)) = detect R (r_text (analyze_comment R c))
  -> analyze_comment (with_detect R d) (as_comment (analyze_comment R c))
     = analyze_comment R c.
Proof.
  intros Hd.
  transitivity (analyze_comment R (as_comment (analyze_comment R c)));
    [| apply reanalyze_same_detector].
  apply analyze_with_detect.
  cbn [as_comment c_text].
  assert (Hget : forall s : str, get_or (Some s) [] = s)
    by (intros [| a t]; reflexivity).
  rewrite Hget.
  assert (Htext : strip R (r_text (analyze_comment R c))
                  = r_text (analyze_comment R c))
    by apply strip_idempotent.
  rewrite Htext. exact Hd.
Qed.

Lemma analyze_again_witness :
  analyze_comment (with_detect ascii_runtime (fun _ => Some (lit "en")))
    (as_comment (analyze_comment ascii_runtime padded_comment))
  = analyze_comment ascii_runtime padded_comment.
Proof.
  apply (@analyze_again ascii_runtime (fun _ => Some (lit "en"))
           padded_comment).
  reflexivity.
Defined.

(** With another answer the second result differs: the detector's answer
    is copied into the result. *)
Example reanalyze_other_language :
  analyze_comment (with_detect ascii_runtime (fun _ => Some (lit "cs")))
    (as_comment (analyze_comment ascii_runtime padded_comment))
  <> analyze_comment ascii_runtime padded_comment.
Proof.
  vm_compute. discriminate.
Qed.

(** ** What the link rule and the punctuation rule look for *)

Lemma starts_with_spec (sub s : str) :
  starts_with sub s = true <-> exists post, s = sub ++ post.
Proof.
  revert s. induction sub as [| a sub IH]; intros s; cbn [starts_with].
  - split; [intros _; now exists s | reflexivity].
  - destruct s as [| c t].
    + split; [discriminate | intros (post & H); discriminate].
    + rewrite andb_true_iff, N.eqb_eq, IH. split.
      * intros (-> & post & ->). now exists post.
      * intros (post & H). injection H as -> ->. split; [reflexivity |].
        now exists post.
Qed.

Lemma contains_spec (sub s : str) :
  contains sub s = true <-> exists pre post, s = pre ++ sub ++ post.
Proof.
  induction s as [| c t IH]; cbn [contains].
  - rewrite orb_false_r, starts_with_spec. split.
    + intros (post & H). now exists [], post.
    + intros (pre & post & H). destruct pre as [| x pre]; [| discriminate].
      now exists post.
  - rewrite orb_true_iff, starts_with_spec, IH. split.
    + intros [(post & H) | (pre & post & H)].
      * now exists [], post.
      * exists (c :: pre), post. now rewrite H.
    + intros (pre & post & H). destruct pre as [| x pre].
      * left. now exists post.
      * right. injection H as -> H. now exists pre, post.
Qed.

Lemma starts_with_app (a b s : str) :
  starts_with (a ++ b) s
  = starts_with a s && starts_with b (skipn (length a) s).
Proof.
  revert s. induction a as [| x a IH]; intros s; cbn [app starts_with].
  - reflexivity.
  - destruct s as [| c t]; [reflexivity |].
    cbn [length skipn]. rewrite IH. now rewrite andb_assoc.
Qed.

Lemma ends_Lit (sub : str) :
  forall prev s,
    ends (Lit sub) (prev, s)
    = if starts_with sub s
      then [(last_char prev sub, skipn (length sub) s)] else [].
Proof.
  induction sub as [| a sub IH]; intros prev s; cbn [Lit ends starts_with].
  - reflexivity.
  - cbn [fst snd]. destruct s as [| c t]; [reflexivity |].
    rewrite N.eqb_sym. destruct (N.eqb_spec c a) as [-> | Hne];
      [| reflexivity].
    cbn [flat_map andb]. rewrite app_nil_r, IH. reflexivity.
Qed.

Lemma url_re_at (prev : option char) (s : str) :
  matches_at url_re (prev, s)
  = starts_with (lit "http://") s || starts_with (lit "https://") s
    || starts_with (lit "www.") s.
Proof.
  change (lit "http://") with (lit "http" ++ lit "://").
  change (lit "https://") with (lit "http" ++ (lit "s" ++ lit "://")).
  rewrite !starts_with_app.
  unfold matches_at, url_re. cbn [ends]. rewrite !ends_Lit.
  destruct (starts_with (lit "http") s); cbn [flat_map andb orb app].
  - rewrite app_nil_r. cbn [ends]. rewrite !ends_Lit.
    destruct (starts_with (lit "s") (skipn (length (lit "http")) s));
      cbn [flat_map app andb orb]; rewrite ?ends_Lit;
      repeat match goal with
             | |- context [starts_with ?a ?b] =>
                 destruct (starts_with a b); cbn [app andb orb flat_map]
             end; reflexivity.
  - destruct (starts_with (lit "www.") s); reflexivity.
Qed.

Lemma url_re_search (s : str) :
  forall prev,
    search_from url_re prev s
    = contains (lit "http://") s || contains (lit "https://") s
      || contains (lit "www.") s.
Proof.
  induction s as [| c t IH]; intros prev; cbn [search_from contains];
    rewrite url_re_at.
  - now rewrite !orb_false_r.
  - rewrite IH.
    destruct (starts_with (lit "http://") (c :: t)),
      (starts_with (lit "https://") (c :: t)),
      (starts_with (lit "www.") (c :: t)),
      (contains (lit "http://") t), (contains (lit "https://") t),
      (contains (lit "www.") t); reflexivity.
Qed.

(** X7: the link rule fires exactly when the trimmed text contains
    "http://", "https://" or "www." somewhere, in lower case. *)
Theorem url_rule_iff (R : Runtime) (c : Comment) :
  fires R c rule_url = true
  <-> exists pre post,
        let text := strip R (get_or (c_text c) []) in
        text = pre ++ lit "http://" ++ post
        \/ text = pre ++ lit "https://" ++ post
        \/ text = pre ++ lit "www." ++ post.
Proof.
  unfold fires. cbv zeta. cbn [trigger]. unfold re_search.
  rewrite url_re_search, !orb_true_iff, !contains_spec. split.
  - intros [[(pre & post & H) | (pre & post & H)] | (pre & post & H)];
      exists pre, post; tauto.
  - intros (pre & post & [H | [H | H]]);
      [left; left | left; right | right]; now exists pre, post.
Qed.

Lemma rep_at_iff (n : nat) (p : char -> bool) (prev : option char) (s : str) :
  matches_at (Rep n p) (prev, s) = true
  <-> exists run post,
        s = run ++ post /\ n <= length run /\ forallb p run = true.
Proof.
  split.
  - unfold matches_at. cbn [ends fst snd].
    destruct (rep_ends n p prev s) as [| [o post] l] eqn:He;
      [discriminate |].
    intros _.
    assert (Hin : In (o, post) (rep_ends n p prev s))
      by (rewrite He; now left).
    apply rep_ends_inv in Hin as (run & Hs & Hlen & Hall & _).
    now exists run, post.
  - intros (run & post & -> & Hlen & Hall).
    apply matches_at_In with (k' := (last_char prev run, post)).
    cbn [ends fst snd]. now apply rep_ends_reads.
Qed.

Lemma search_iff (r : regex) (s : str) :
  re_search r s = true
  <-> exists pre rest, s = pre ++ rest
                       /\ matches_at r (last_char None pre, rest) = true.
Proof.
  split.
  - apply search_from_inv.
  - intros (pre & rest & -> & H). now apply search_from_app.
Qed.

Lemma punct_re_iff (s : str) :
  re_search punct_re s = true <-> exists pre run post, has_run punct 3 s pre run post.
Proof.
  unfold punct_re, has_run. rewrite search_iff. split.
  - intros (pre & rest & -> & H). apply rep_at_iff in H as (run & post & H).
    destruct H as (-> & Hlen & Hall). now exists pre, run, post.
  - intros (pre & run & post & -> & Hlen & Hall).
    exists pre, (run ++ post). split; [reflexivity |].
    apply rep_at_iff. now exists run, post.
Qed.

Lemma repeat_re_iff (s : str) :
  re_search repeat_re s = true
  <-> exists ch pre run post,
        ch <> 10%N /\ has_run (N.eqb ch) 7 s pre run post.
Proof.
  unfold repeat_re, has_run. rewrite search_iff. split.
  - intros (pre & rest & -> & H). unfold matches_at in H.
    cbn [ends fst snd] in H. destruct rest as [| ch t]; [discriminate |].
    unfold dot in H. destruct (N.eqb_spec ch 10) as [| Hne];
      [discriminate |]. cbn [negb] in H.
    destruct (rep_ends 6 (N.eqb ch) (Some ch) t) as [| [o post] l] eqn:He;
      [discriminate |].
    assert (Hin : In (o, post) (rep_ends 6 (N.eqb ch) (Some ch) t))
      by (rewrite He; now left).
    apply rep_ends_inv in Hin as (run & -> & Hlen & Hall & _).
    exists ch, pre, (ch :: run), post. split; [exact Hne |].
    split; [reflexivity |]. split; [simpl; lia |].
    cbn [forallb]. now rewrite N.eqb_refl.
  - intros (ch & pre & run & post & Hne & -> & Hlen & Hall).
    destruct run as [| d run]; [simpl in Hlen; lia |].
    cbn [forallb] in Hall. apply andb_prop in Hall as [Hd Hall].
    apply N.eqb_eq in Hd. subst d.
    exists pre, ((ch :: run) ++ post). split; [reflexivity |].
    apply matches_at_In with (k' := (last_char (Some ch) run, post)).
    cbn [app ends fst snd]. unfold dot.
    destruct (N.eqb_spec ch 10) as [| _]; [contradiction |]. cbn [negb].
    apply rep_ends_reads; [simpl in Hlen; lia | exact Hall].
Qed.

(** X8: the punctuation rule fires exactly when the trimmed text has three
    characters in a row among "!", "?" and "." (not necessarily the same
    one), or one character other than a newline seven times in a row. *)
Theorem punct_rule_iff (R : Runtime) (c : Comment) :
  let text := strip R (get_or (c_text c) []) in
  fires R c rule_punct = true
  <-> (exists pre run post, has_run punct 3 text pre run post)
      \/ (exists ch pre run post,
            ch <> 10%N /\ has_run (N.eqb ch) 7 text pre run post).
Proof.
  cbv zeta. unfold fires. cbv zeta. cbn [trigger].
  now rewrite orb_true_iff, punct_re_iff, repeat_re_iff.
Qed.

(** * Further properties of the CSV reader *)

(** ** Splitting a line *)

Lemma split_on_nonempty (sep : char) (s : str) : split_on sep s <> [].
Proof.
  destruct s as [| c t]; cbn [split_on]; [discriminate |].
  destruct (N.eqb c sep); [discriminate |].
  destruct (split_on sep t); discriminate.
Qed.

Lemma split_on_length (sep : char) (s : str) :
  length (split_on sep s) = S (count_class (N.eqb sep) s).
Proof.
  unfold count_class. induction s as [| c t IH]; cbn [split_on filter];
    [reflexivity |].
  pose proof (split_on_nonempty sep t) as Hne.
  rewrite (N.eqb_sym sep c). destruct (N.eqb c sep); cbn [length].
  - now rewrite IH.
  - destruct (split_on sep t) as [| p ps]; [congruence | exact IH].
Qed.

(** X9: splitting a line at a separator loses nothing: joining the parts
    with the separator gives the line back, no part contains the separator,
    and there is one part more than there are separators. *)
Theorem split_join (sep : char) (s : str) :
  join sep (split_on sep s) = s
  /\ Forall (fun part => ~ In sep part) (split_on sep s)
  /\ length (split_on sep s) = S (count_class (N.eqb sep) s).
Proof.
  unfold count_class.
  induction s as [| c t (IHj & IHf & IHl)]; cbn [split_on].
  - repeat split. constructor; [intros [] | constructor].
  - pose proof (split_on_nonempty sep t) as Hne.
    cbn [filter]. rewrite (N.eqb_sym sep c).
    destruct (N.eqb_spec c sep) as [-> | Hc].
    + destruct (split_on sep t) as [| p ps] eqn:Hs; [congruence |].
      repeat split.
      * change (join sep ([] :: p :: ps))
          with (sep :: join sep (p :: ps)).
        now rewrite IHj.
      * constructor; [intros [] | exact IHf].
      * cbn [length] in *. now rewrite IHl.
    + destruct (split_on sep t) as [| p ps] eqn:Hs; [congruence |].
      repeat split.
      * destruct ps as [| q ps].
        -- cbn [join] in *. now rewrite IHj.
        -- change (join sep ((c :: p) :: q :: ps))
             with (c :: join sep (p :: q :: ps)).
           now rewrite IHj.
      * apply Forall_cons_iff in IHf as [Hp Hps].
        constructor; [| exact Hps].
        intros [H | H]; [congruence | contradiction].
      * exact IHl.
Qed.

(** ** The reading loop *)

Section LoopFacts.
Variable X : Type.
Variable body : X -> turn.

Lemma read_loop_app_from (good rest : list X) :
  forall comments,
    snd (read_loop body good comments) = false ->
    read_loop body (good ++ rest) comments
    = read_loop body rest (fst (read_loop body good comments)).
Proof.
  induction good as [| x good IH]; intros comments Hok;
    cbn [app read_loop] in *; [reflexivity |].
  destruct (body x) as [c | |]; [now apply IH | now apply IH |].
  discriminate.
Qed.

Lemma read_loop_app (good rest : list X) :
  snd (read_loop body good []) = false ->
  read_loop body (good ++ rest) []
  = read_loop body rest (fst (read_loop body good [])).
Proof. apply read_loop_app_from. Qed.

(** Every comment the loop returns was appended by some turn. *)
Lemma read_loop_Forall (P : Comment -> Prop) (items : list X) :
  (forall x c, In x items -> body x = Appended c -> P c) ->
  forall comments, Forall P comments ->
  Forall P (fst (read_loop body items comments)).
Proof.
  induction items as [| x rest IH]; intros Hbody comments Hc;
    cbn [read_loop]; [exact Hc |].
  destruct (body x) as [c | |] eqn:Hx.
  - apply IH; [intros y d Hy; apply Hbody; now right |].
    apply Forall_app. split; [exact Hc |].
    constructor; [| constructor]. apply (Hbody x); [now left | exact Hx].
  - apply IH; [intros y d Hy; apply Hbody; now right | exact Hc].
  - exact Hc.
Qed.

Lemma read_loop_no_raise (items : list X) :
  (forall x, In x items -> exists c, body x = Appended c) ->
  forall comments,
    snd (read_loop body items comments) = false
    /\ length (fst (read_loop body items comments))
       = length comments + length items.
Proof.
  induction items as [| x rest IH]; intros Hbody comments;
    cbn [read_loop].
  - cbn [fst snd length]. split; [reflexivity | lia].
  - destruct (Hbody x (or_introl eq_refl)) as (c & ->).
    destruct (IH (fun y Hy => Hbody y (or_intror Hy)) (comments ++ [c]))
      as [H1 H2].
    split; [exact H1 |]. rewrite H2, length_app. cbn [length]. lia.
Qed.
End LoopFacts.

Lemma headered_row_not_skipped (R : Runtime) (r : row) :
  headered_row R r <> Skipped.
Proof.
  unfold headered_row. cbv zeta.
  destruct (or_else _ _) as [[| a t] |]; try discriminate.
  destruct (py_int R (a :: t)); discriminate.
Qed.

(** X12: in a headered file, when no row raises every row gives one comment;
    the first row that raises ends the read: the comments of the rows before
    it are returned and every row after it is dropped. *)
Theorem headered_read_stops_at_raise (R : Runtime)
        (before after : list row) (bad : row) :
  (forall r, In r before -> headered_row R r <> Raised) ->
  headered_row R bad = Raised ->
  read_csv R (Headered before)
  = (read_comments_csv R (Headered before), false)
  /\ length (read_comments_csv R (Headered before)) = length before
  /\ read_csv R (Headered (before ++ bad :: after))
     = (read_comments_csv R (Headered before), true).
Proof.
  intros Hgood Hbad. unfold read_comments_csv, read_csv.
  assert (Hall : forall r, In r before ->
                           exists c, headered_row R r = Appended c).
  { intros r Hr. pose proof (Hgood r Hr) as H1.
    pose proof (headered_row_not_skipped R r) as H2.
    destruct (headered_row R r) as [c | |]; [now exists c | |];
      contradiction. }
  destruct (read_loop_no_raise (headered_row R) before Hall [])
    as [Hok Hlen].
  split; [| split].
  - rewrite <- Hok. now destruct (read_loop (headered_row R) before []).
  - exact Hlen.
  - rewrite (read_loop_app (headered_row R) before (bad :: after) Hok).
    cbn [read_loop]. now rewrite Hbad.
Qed.

Lemma headered_read_stops_at_raise_witness :
  read_csv ascii_runtime (Headered [good_row])
  = (read_comments_csv ascii_runtime (Headered [good_row]), false)
  /\ length (read_comments_csv ascii_runtime (Headered [good_row]))
     = length [good_row]
  /\ read_csv ascii_runtime (Headered ([good_row] ++ bad_row :: [good_row]))
     = (read_comments_csv ascii_runtime (Headered [good_row]), true).
Proof.
  apply (@headered_read_stops_at_raise ascii_runtime [good_row] [good_row]
           bad_row).
  - intros r [<- | []]. vm_compute. discriminate.
  - vm_compute. reflexivity.
Defined.

(** X13: every comment the reader returns has all five keys set; from a
    headered file, its author and its platform are moreover not empty. *)
Theorem read_comments_populated (R : Runtime) (f : csv_file) (c : Comment) :
  In c (read_comments_csv R f) ->
  populated c
  /\ (forall rows, f = Headered rows ->
      c_author c <> Some [] /\ c_platform c <> Some []).
Proof.
  intros Hin.
  assert (Hget : forall o d, d <> [] -> get_or o d <> [])
    by (intros [[| a t] |] d Hd; cbn [get_or]; congruence).
  unfold read_comments_csv, read_csv in Hin. destruct f as [| rows].
  - destruct Hin.
  - assert (H : populated c
                /\ c_author c <> Some [] /\ c_platform c <> Some []);
      [| split; [apply H | intros _ _; apply H]].
    revert c Hin. apply Forall_forall.
    apply read_loop_Forall; [| constructor].
    intros r c _ H. unfold headered_row in H. cbv zeta in H.
    destruct (match or_else _ _ with Some (_ :: _) => _ | _ => _ end);
      [| discriminate].
    injection H as <-. cbn [c_author c_platform].
    split; [repeat split; discriminate |].
    split; intros H; injection H as H; revert H; apply Hget; discriminate.
Qed.

Lemma read_comments_populated_witness :
  populated (mk_sample (lit "Ann") (lit "hi there") [] 7 (lit "unknown"))
  /\ (forall rows, Headered [good_row] = Headered rows ->
      c_author (mk_sample (lit "Ann") (lit "hi there") [] 7 (lit "unknown"))
      <> Some []
      /\ c_platform (mk_sample (lit "Ann") (lit "hi there") [] 7
                       (lit "unknown"))
         <> Some []).
Proof.
  apply (@read_comments_populated ascii_runtime (Headered [good_row])).
  vm_compute. left. reflexivity.
Defined.



(** * Platform detection and the demo comments *)

Lemma detect_platform_known (R : Runtime) (url : str) :
  In (detect_platform_from_url R url) platforms.
Proof.
  unfold detect_platform_from_url. cbv zeta.
  repeat match goal with
         | |- context [if ?b then _ else _] => destruct b
         end; simpl; tauto.
Qed.

(** X15: the detected platform is always one of the six platform names, and
    it is "unknown" exactly when the lower-cased URL contains none of the
    seven host names the function looks for. *)
Theorem platform_detected (R : Runtime) (url : str) :
  In (detect_platform_from_url R url) platforms
  /\ (detect_platform_from_url R url = lit "unknown"
      <-> forall m, In m markers -> contains m (lower R url) = false).
Proof.
  unfold detect_platform_from_url. cbv zeta.
  destruct (contains (lit "youtube.com") (lower R url)) eqn:H1;
    [| destruct (contains (lit "youtu.be") (lower R url)) eqn:H2;
       [| destruct (contains (lit "instagram.com") (lower R url)) eqn:H3;
          [| destruct (contains (lit "facebook.com") (lower R url)) eqn:H4;
             [| destruct (contains (lit "x.com") (lower R url)) eqn:H5;
                [| destruct (contains (lit "twitter.com") (lower R url))
                     eqn:H6;
                   [| destruct (contains (lit "linkedin.com") (lower R url))
                        eqn:H7]]]]]];
    cbn [orb]; (split; [simpl; tauto |]).
  1-7: split; [intros H; vm_compute in H; discriminate |];
    intros H;
    match goal with
    | Hc : contains ?m _ = true |- _ =>
        rewrite (H m) in Hc by (simpl; tauto); discriminate
    end.
  split; [| reflexivity]. intros _ m Hm. simpl in Hm.
  repeat (destruct Hm as [<- | Hm]; [assumption |]). destruct Hm.
Qed.

Lemma str_eqb_eq (a b : str) : str_eqb a b = true <-> a = b.
Proof.
  revert b. induction a as [| x a IH]; intros [| y b]; cbn [str_eqb];
    try (split; [discriminate | congruence]); [tauto |].
  rewrite andb_true_iff, N.eqb_eq, IH. split; [intros [-> ->] | intros H];
    [reflexivity | injection H as -> ->; tauto].
Qed.

Lemma dict_get_In (V : Type) (k : str) (d : list (str * V)) (v : V) :
  dict_get k d = Some v -> In (k, v) d.
Proof.
  induction d as [| [k' w] d IH]; cbn [dict_get]; [discriminate |].
  destruct (str_eqb k k') eqn:Hk.
  - apply str_eqb_eq in Hk. subst k'. intros H. injection H as ->. now left.
  - intros H. right. now apply IH.
Qed.

(** X16: for every platform name, known or not, the demo comments are a
    non-empty list; each has all five keys set and a like count that is not
    negative, and names the platform asked for, or "unknown" when that
    platform has no demo comments of its own. *)
Theorem demo_comments_total (platform : str) :
  load_sample_comments platform <> []
  /\ forall c, In c (load_sample_comments platform) ->
       populated c
       /\ (exists n, c_likeCount c = Some n /\ (0 <= n)%Z)
       /\ (c_platform c = Some platform
           \/ (dict_get platform samples = None
               /\ c_platform c = Some (lit "unknown"))).
Proof.
  unfold load_sample_comments.
  destruct (dict_get platform samples) as [l |] eqn:Hget.
  - apply dict_get_In in Hget. unfold samples in Hget. cbn [In] in Hget.
    repeat (destruct Hget as [Hget | Hget];
            [injection Hget as <- <-; split; [discriminate |];
             intros c Hc; cbn [In] in Hc;
             repeat (destruct Hc as [<- | Hc];
                     [split; [repeat split; discriminate |];
                      split; [eexists; split; [reflexivity | lia] |];
                      left; reflexivity |]);
             destruct Hc |]).
    destruct Hget.
  - split; [vm_compute; discriminate |].
    intros c Hc. change (dict_get (lit "unknown") samples)
      with (Some [mk_sample (lit "DefaultUser") (lit "Sample comment.")
                    (lit "2023-06-01") 3 (lit "unknown")]) in Hc.
    destruct Hc as [<- | []].
    split; [repeat split; discriminate |].
    split; [eexists; split; [reflexivity | lia] |].
    right. split; reflexivity.
Qed.

(** X17: [process_url] never returns an empty list: when nothing was fetched
    it returns the demo comments of the detected platform, each of which
    names that platform. *)
Theorem process_url_never_empty (R : Runtime) (url : str)
        (fetched : list Comment) :
  snd (process_url R url fetched) <> []
  /\ (fetched = [] ->
      forall c, In c (snd (process_url R url fetched)) ->
                c_platform c = Some (fst (process_url R url fetched))).
Proof.
  unfold process_url. cbv zeta. cbn [fst snd].
  destruct fetched as [| c0 rest]; [| split; discriminate].
  pose proof (detect_platform_known R url) as Hin.
  unfold platforms in Hin. cbn [In] in Hin.
  repeat (destruct Hin as [Hin | Hin];
          [rewrite <- Hin; split; [vm_compute; discriminate |];
           intros _ c Hc; vm_compute in Hc;
           repeat (destruct Hc as [<- | Hc]; [reflexivity |]);
           destruct Hc |]).
  destruct Hin.
Qed.

(** * The summary of the report *)

Lemma verdict_eqb_spec (a b : Verdict) : reflect (a = b) (verdict_eqb a b).
Proof. destruct a, b; simpl; constructor; congruence. Qed.

Lemma counts_get_bump (v w : Verdict) (counts : list (Verdict * nat)) :
  counts_get v (bump w counts)
  = counts_get v counts + (if verdict_eqb w v then 1 else 0).
Proof.
  induction counts as [| [k n] rest IH]; cbn [bump counts_get].
  - lia.
  - destruct (verdict_eqb_spec k w) as [-> | Hkw]; cbn [counts_get].
    + destruct (verdict_eqb w v); lia.
    + destruct (verdict_eqb_spec k v) as [-> | Hkv].
      * destruct (verdict_eqb_spec w v) as [-> | _]; [congruence | lia].
      * exact IH.
Qed.

Lemma counts_get_fold (v : Verdict) (l : list AnalysisResult) :
  forall counts,
    counts_get v (fold_left (fun cs a => bump (r_verdict a) cs) l counts)
    = counts_get v counts + tally v l.
Proof.
  unfold tally.
  induction l as [| a l IH]; intros counts; cbn [fold_left filter length].
  - lia.
  - rewrite IH, counts_get_bump.
    destruct (verdict_eqb (r_verdict a) v); cbn [length]; lia.
Qed.

Lemma bump_keys (w : Verdict) (counts : list (Verdict * nat)) (k : Verdict) :
  In k (map fst (bump w counts)) -> k = w \/ In k (map fst counts).
Proof.
  induction counts as [| [k' n] rest IH]; cbn [bump map fst In].
  - intuition congruence.
  - destruct (verdict_eqb_spec k' w) as [-> | Hne]; cbn [map fst In];
      [intuition congruence |].
    intros [H | H]; [tauto |]. destruct (IH H); tauto.
Qed.

Lemma bump_well_counted (w : Verdict) (counts : list (Verdict * nat)) :
  well_counted counts -> well_counted (bump w counts).
Proof.
  unfold well_counted.
  induction counts as [| [k n] rest IH]; intros [Hnd Hpos]; cbn [bump].
  - split; repeat constructor. intros [].
  - cbn [map fst] in Hnd. apply NoDup_cons_iff in Hnd as [Hk Hnd].
    apply Forall_cons_iff in Hpos as [Hn Hpos].
    destruct (verdict_eqb_spec k w) as [-> | Hne].
    + split; [now constructor |]. constructor; [simpl; lia | exact Hpos].
    + destruct (IH (conj Hnd Hpos)) as [Hnd' Hpos'].
      split; [| now constructor].
      cbn [map fst]. constructor; [| exact Hnd'].
      intros H. apply bump_keys in H as [H | H]; [congruence | contradiction].
Qed.

Lemma count_verdicts_well_counted (l : list AnalysisResult) :
  well_counted (count_verdicts l).
Proof.
  unfold count_verdicts.
  assert (H : well_counted []) by (split; constructor).
  revert H. generalize (@nil (Verdict * nat)).
  induction l as [| a l IH]; intros counts H; cbn [fold_left];
    [exact H |].
  apply IH. now apply bump_well_counted.
Qed.

Lemma sum_bump (w : Verdict) (counts : list (Verdict * nat)) :
  list_sum (map snd (bump w counts)) = S (list_sum (map snd counts)).
Proof.
  unfold list_sum.
  induction counts as [| [k n] rest IH]; cbn [bump]; [reflexivity |].
  destruct (verdict_eqb k w); cbn [map snd fold_right]; [lia |].
  rewrite IH. lia.
Qed.

Lemma sum_count_verdicts (l : list AnalysisResult) :
  list_sum (map snd (count_verdicts l)) = length l.
Proof.
  unfold count_verdicts.
  assert (H : forall counts,
             list_sum (map snd (fold_left
                                  (fun cs a => bump (r_verdict a) cs)
                                  l counts))
             = list_sum (map snd counts) + length l).
  { induction l as [| a l IH]; intros counts; cbn [fold_left length];
      [lia |].
    rewrite IH, sum_bump. lia. }
  now rewrite H.
Qed.

(** X18: the histogram of the report counts right: the entry of a verdict is
    the number of results with that verdict, no verdict has two entries, no
    entry is zero, and the entries add up to the number of results. *)
Theorem histogram_counts (l : list AnalysisResult) :
  (forall v, counts_get v (count_verdicts l) = tally v l)
  /\ NoDup (map fst (count_verdicts l))
  /\ Forall (fun kv => 0 < snd kv) (count_verdicts l)
  /\ list_sum (map snd (count_verdicts l)) = length l.
Proof.
  split; [| split; [| split]].
  - intros v. unfold count_verdicts. now rewrite counts_get_fold.
  - apply count_verdicts_well_counted.
  - apply count_verdicts_well_counted.
  - apply sum_count_verdicts.
Qed.

Lemma filter_all (A : Type) (f : A -> bool) (l : list A) :
  Forall (fun x => f x = true) l -> filter f l = l.
Proof.
  induction 1 as [| x l Hx Hl IH]; cbn [filter]; [reflexivity |].
  now rewrite Hx, IH.
Qed.

(** X19: the pie chart shows every entry of the histogram, dropping none,
    and its sizes add up to the number of results; only for an empty
    analysis does it show the single slice "No comments" of size 1. *)
Theorem pie_slices_of_histogram (l : list AnalysisResult) :
  (l = [] -> pie_slices (count_verdicts l) = [(None, 1)])
  /\ (l <> [] ->
      pie_slices (count_verdicts l)
      = map (fun kv => (Some (fst kv), snd kv)) (count_verdicts l)
      /\ list_sum (map snd (pie_slices (count_verdicts l))) = length l).
Proof.
  split; [intros ->; reflexivity |].
  intros Hne.
  destruct (count_verdicts_well_counted l) as [_ Hpos].
  pose proof (sum_count_verdicts l) as Hsum.
  assert (Hf : filter (fun kv : Verdict * nat => Nat.ltb 0 (snd kv))
                 (count_verdicts l) = count_verdicts l).
  { apply filter_all. eapply Forall_impl; [| exact Hpos].
    intros kv H. now apply Nat.ltb_lt. }
  unfold pie_slices. rewrite Hf.
  destruct (count_verdicts l) as [| kv rest] eqn:Hc.
  - cbn [map list_sum fold_right] in Hsum.
    destruct l; [congruence | discriminate].
  - split; [reflexivity |]. rewrite map_map. cbn [snd]. exact Hsum.
Qed.

Lemma tally_split (l : list AnalysisResult) :
  tally real l + tally likely_real l + tally likely_fake l + tally fake l
  = length l
  /\ real_count l = tally real l + tally likely_real l.
Proof.
  unfold tally, real_count.
  induction l as [| a l [IH1 IH2]]; [split; reflexivity |].
  cbn [filter length]. destruct (r_verdict a); cbn [verdict_eqb orb length];
    split; lia.
Qed.

(** X20: in the summary line "Likely Real" counts the verdicts real and
    likely-real, and "Likely Fake", computed as the total minus that, is the
    number of results whose verdict is likely-fake or fake; it is never
    negative. *)
Theorem summary_counts (l : list AnalysisResult) :
  real_count l = tally real l + tally likely_real l
  /\ fake_count l = Z.of_nat (tally likely_fake l + tally fake l)
  /\ (0 <= fake_count l)%Z.
Proof.
  destruct (tally_split l) as [Hsum Hreal]. unfold fake_count.
  repeat split; [exact Hreal | lia | lia].
Qed.

Lemma tally_perm (v : Verdict) (l l' : list AnalysisResult) :
  Permutation l l' -> tally v l = tally v l'.
Proof.
  intros H. unfold tally. apply Permutation_length.
  induction H as [| x l l' H IH | x y l | l l' l'' H1 IH1 H2 IH2];
    cbn [filter].
  - constructor.
  - destruct (verdict_eqb (r_verdict x) v); [now constructor | exact IH].
  - destruct (verdict_eqb (r_verdict x) v), (verdict_eqb (r_verdict y) v);
      try apply Permutation_refl. apply perm_swap.
  - eapply perm_trans; eassumption.
Qed.

(** X21: sorting changes none of the numbers of the report: the histogram
    entries, the two summary counts and the total of the sorted view are
    those of the unsorted analysis. *)
Theorem summary_of_sorted_view (l : list AnalysisResult) :
  let view := sorted_by r_score l in
  (forall v, counts_get v (count_verdicts view)
             = counts_get v (count_verdicts l))
  /\ real_count view = real_count l
  /\ fake_count view = fake_count l
  /\ length view = length l.
Proof.
  cbv zeta. pose proof (sorted_by_perm r_score l) as Hp.
  assert (Ht : forall v, tally v (sorted_by r_score l) = tally v l)
    by (intros v; now apply tally_perm).
  assert (Hlen : length (sorted_by r_score l) = length l)
    by now apply Permutation_length.
  destruct (tally_split l) as [_ Hr].
  destruct (tally_split (sorted_by r_score l)) as [_ Hr'].
  assert (Hreal : real_count (sorted_by r_score l) = real_count l)
    by (rewrite Hr, Hr', !Ht; reflexivity).
  repeat split.
  - intros v. unfold count_verdicts.
    now rewrite !counts_get_fold, Ht.
  - exact Hreal.
  - unfold fake_count. now rewrite Hreal, Hlen.
  - exact Hlen.
Qed.

(** X22: the report starts with the most suspicious comment: the first
    result of [analysis_sorted], the list [main] hands to the report, has
    the least score of all results. *)
Theorem first_is_most_suspicious (l : list AnalysisResult)
        (first : AnalysisResult) (rest : list AnalysisResult) :
  analysis_sorted l = first :: rest ->
  Forall (fun a => (r_score first <= r_score a)%Z) l.
Proof.
  unfold analysis_sorted.
  intros Hview. apply Forall_forall. intros a Ha.
  pose proof (sorted_by_ascending r_score l) as Hasc.
  pose proof (sorted_by_perm r_score l) as Hperm.
  rewrite Hview in Hasc, Hperm. unfold ascending in Hasc.
  apply StronglySorted_inv in Hasc as [_ Hmin].
  apply (Permutation_in a (Permutation_sym Hperm)) in Ha.
  destruct Ha as [<- | Ha]; [lia |].
  rewrite Forall_forall in Hmin. now apply Hmin.
Qed.

Lemma first_is_most_suspicious_witness :
  Forall (fun a =>
            (r_score (analyze_comment ascii_runtime sample_spambot)
             <= r_score a)%Z)
    (analysis ascii_runtime [sample_user123; sample_spambot]).
Proof.
  apply (@first_is_most_suspicious
           (analysis ascii_runtime [sample_user123; sample_spambot])
           (analyze_comment ascii_runtime sample_spambot)
           [analyze_comment ascii_runtime sample_user123]).
  vm_compute. reflexivity.
Defined.

(** ** Wrapping a string over lines *)

Lemma firstn_plus (A : Type) (a b : nat) (s : list A) :
  firstn (a + b) s = firstn a s ++ firstn b (skipn a s).
Proof.
  revert s. induction a as [| a IH]; intros s; [reflexivity |].
  destruct s as [| x s]; cbn [Nat.add firstn skipn app].
  - now rewrite firstn_nil.
  - now rewrite IH.
Qed.

Lemma slice_width (s : str) (start width : nat) :
  slice s start (start + width) = firstn width (skipn start s).
Proof.
  unfold slice. now replace (start + width - start) with width by lia.
Qed.

Lemma wrap_prefix (width : nat) (s : str) (k : nat) :
  concat (map (fun start => slice s start (start + width))
            (map (fun i => i * width) (seq 0 k)))
  = firstn (k * width) s.
Proof.
  induction k as [| k IH]; [reflexivity |].
  rewrite seq_S, !map_app, concat_app, IH. cbn [map concat Nat.add].
  rewrite app_nil_r, slice_width.
  replace (S k * width) with (k * width + width) by lia.
  now rewrite firstn_plus.
Qed.

Lemma range_step_covers (n width : nat) :
  0 < width ->
  n <= (n + width - 1) / width * width
  /\ forall i, i < (n + width - 1) / width -> i * width < n.
Proof.
  intros Hw.
  pose proof (Nat.div_mod_eq (n + width - 1) width) as Hdiv.
  pose proof (Nat.mod_upper_bound (n + width - 1) width) as Hmod.
  split; [nia |]. intros i Hi. nia.
Qed.

(** X23: wrapping a string over lines of a positive width loses and adds
    nothing: the lines, put together, are the string, and every line has at
    least one character and at most the width.  The reasons of the report
    are wrapped at 110. *)
Theorem wrap_keeps_text (width : nat) (s : str) :
  0 < width ->
  concat (wrap width s) = s
  /\ Forall (fun line => 1 <= length line <= width) (wrap width s).
Proof.
  intros Hw. destruct (range_step_covers (length s) Hw) as [Hcover Hin].
  unfold wrap, range_step. split.
  - rewrite wrap_prefix. now apply firstn_all2.
  - apply Forall_forall. intros line Hline.
    apply in_map_iff in Hline as (start & <- & Hstart).
    apply in_map_iff in Hstart as (i & <- & Hi).
    apply in_seq in Hi. rewrite slice_width, length_firstn, length_skipn.
    pose proof (Hin i ltac:(lia)). lia.
Qed.

Lemma wrap_keeps_text_witness :
  concat (wrap 110 msg_digits) = msg_digits
  /\ Forall (fun line => 1 <= length line <= 110) (wrap 110 msg_digits).
Proof.
  apply (@wrap_keeps_text 110 msg_digits). lia.
Defined.

(** * Case-insensitive rules on ASCII text *)

Section IgnoreCase.
Variable R : Runtime.

Lemma imatch_ascii (a c : char) :
  is_ascii c = true ->
  imatch R a c = N.eqb (ascii_lower a) (ascii_lower c).
Proof.
  intros Hc. unfold imatch. rewrite Hc. apply N.eqb_sym.
Qed.

Lemma ends_ILit_ascii (p : str) :
  forall (prev : option char) (s : str),
    forallb is_ascii s = true ->
    ends (ILit R p) (prev, s)
    = if starts_with (map ascii_lower p) (map ascii_lower s)
      then [(last_char prev (firstn (length p) s), skipn (length p) s)]
      else [].
Proof.
  induction p as [| a p IH]; intros prev s Hs;
    cbn [ILit ends map starts_with length firstn skipn].
  - reflexivity.
  - cbn [fst snd]. destruct s as [| c t]; [reflexivity |].
    cbn [forallb] in Hs. apply andb_prop in Hs as [Hc Ht].
    cbn [map starts_with firstn skipn]. rewrite (@imatch_ascii a c Hc).
    destruct (N.eqb (ascii_lower a) (ascii_lower c)); [| reflexivity].
    cbn [flat_map andb]. rewrite app_nil_r.
    exact (IH (Some c) t Ht).
Qed.

Lemma ILit_at_ascii (p : str) (prev : option char) (s : str) :
  forallb is_ascii s = true ->
  matches_at (ILit R p) (prev, s)
  = starts_with (map ascii_lower p) (map ascii_lower s).
Proof.
  intros Hs. unfold matches_at. rewrite (@ends_ILit_ascii p prev s Hs).
  now destruct (starts_with _ _).
Qed.

Lemma ILit_search_ascii (p : str) (s : str) :
  forall prev,
    forallb is_ascii s = true ->
    search_from (ILit R p) prev s
    = contains (map ascii_lower p) (map ascii_lower s).
Proof.
  induction s as [| c t IH]; intros prev Hs;
    cbn [search_from map contains]; rewrite (@ILit_at_ascii p prev _ Hs).
  - reflexivity.
  - cbn [forallb] in Hs. apply andb_prop in Hs as [_ Ht].
    now rewrite (IH (Some c) Ht).
Qed.

Lemma Or_search (r1 r2 : regex) (s : str) :
  forall prev,
    search_from (Or r1 r2) prev s
    = search_from r1 prev s || search_from r2 prev s.
Proof.
  assert (Hat : forall k, matches_at (Or r1 r2) k
                          = matches_at r1 k || matches_at r2 k).
  { intros k. unfold matches_at. cbn [ends].
    destruct (ends r1 k); [reflexivity | reflexivity]. }
  induction s as [| c t IH]; intros prev; cbn [search_from]; rewrite Hat.
  - now rewrite !orb_false_r.
  - rewrite IH.
    repeat match goal with
           | |- context [matches_at ?r ?k] => destruct (matches_at r k)
           | |- context [search_from ?r ?o ?u] =>
               destruct (search_from r o u)
           end; reflexivity.
Qed.

(** An alternation of literals under [re.I], on ASCII text: one of the
    literals occurs in the lower-cased text. *)
Lemma ialt_search_ascii (ps : list str) (last : str) (s : str) :
  forallb is_ascii s = true ->
  re_search (Alt (map (ILit R) ps) (ILit R last)) s
  = existsb (fun p => contains (map ascii_lower p) (map ascii_lower s))
      (ps ++ [last]).
Proof.
  intros Hs. unfold re_search. generalize (@None char).
  induction ps as [| p ps IH]; intros prev; cbn [map Alt app existsb].
  - rewrite (@ILit_search_ascii last s prev Hs). now rewrite orb_false_r.
  - rewrite Or_search, (@ILit_search_ascii p s prev Hs), IH. reflexivity.
Qed.

Lemma lower_ascii (s : str) :
  forallb is_ascii s = true -> lower R s = map ascii_lower s.
Proof. intros H. unfold lower. now rewrite H. Qed.

Lemma keyword_found (words : list str) (s : str) :
  Forall (fun w => map ascii_lower w = w) words ->
  existsb (fun p => contains (map ascii_lower p) (map ascii_lower s)) words
  = true
  <-> exists w pre post,
        In w words /\ map ascii_lower s = pre ++ w ++ post.
Proof.
  intros Hw. rewrite existsb_exists. rewrite Forall_forall in Hw. split.
  - intros (w & Hin & H). rewrite (Hw w Hin) in H.
    apply contains_spec in H as (pre & post & H). now exists w, pre, post.
  - intros (w & pre & post & Hin & H). exists w. split; [exact Hin |].
    rewrite (Hw w Hin). apply contains_spec. now exists pre, post.
Qed.
End IgnoreCase.

(** X24: on a pure-ASCII text the self-promotion rule fires exactly when the
    lower-cased trimmed text contains one of the six phrases: the letter
    case of the comment does not matter. *)
Theorem promo_rule_ascii (R : Runtime) (c : Comment) :
  let text := strip R (get_or (c_text c) []) in
  forallb is_ascii text = true ->
  (fires R c rule_promo = true
   <-> exists phrase pre post,
         In phrase promo_phrases
         /\ lower R text = pre ++ phrase ++ post).
Proof.
  cbv zeta. intros Ha. unfold fires. cbv zeta. cbn [trigger].
  rewrite (@lower_ascii R _ Ha).
  change (promo_re R) with
    (Alt (map (ILit R) [lit "follow me"; lit "check my profile";
                        lit "subscribe"; lit "dm for"; lit "contact me"])
       (ILit R (lit "visit my"))).
  rewrite (@ialt_search_ascii R _ _ _ Ha).
  apply keyword_found. repeat constructor.
Qed.

Lemma promo_rule_ascii_witness :
  fires ascii_runtime (promo_comment 5) rule_promo = true
  <-> exists phrase pre post,
        In phrase promo_phrases
        /\ lower ascii_runtime
             (strip ascii_runtime (get_or (c_text (promo_comment 5)) []))
           = pre ++ phrase ++ post.
Proof.
  apply (@promo_rule_ascii ascii_runtime (promo_comment 5)). reflexivity.
Defined.

(** X25: on a pure-ASCII author name the bot-keyword rule fires exactly when
    the lower-cased trimmed name contains "bot", "spam", "free" or "promo"
    anywhere, also inside a longer word. *)
Theorem bot_rule_ascii (R : Runtime) (c : Comment) :
  let author := strip R (get_or (c_author c) []) in
  forallb is_ascii author = true ->
  (fires R c rule_bot = true
   <-> exists word pre post,
         In word bot_keywords
         /\ lower R author = pre ++ word ++ post).
Proof.
  cbv zeta. intros Ha. unfold fires. cbv zeta. cbn [trigger].
  rewrite (@lower_ascii R _ Ha).
  change (bot_re R) with
    (Alt (map (ILit R) [lit "bot"; lit "spam"; lit "free"])
       (ILit R (lit "promo"))).
  rewrite (@ialt_search_ascii R _ _ _ Ha).
  rewrite <- (@keyword_found bot_keywords
                (strip R (get_or (c_author c) [])))
    by repeat constructor.
  change ([lit "bot"; lit "spam"; lit "free"] ++ [lit "promo"])
    with bot_keywords.
  destruct (strip R (get_or (c_author c) [])) as [| a t];
    [| cbn [length Nat.eqb negb andb]; reflexivity].
  cbn [length Nat.eqb negb andb]. split; [discriminate |].
  vm_compute. discriminate.
Qed.

Lemma bot_rule_ascii_witness :
  fires ascii_runtime sample_spambot rule_bot = true
  <-> exists word pre post,
        In word bot_keywords
        /\ lower ascii_runtime
             (strip ascii_runtime (get_or (c_author sample_spambot) []))
           = pre ++ word ++ post.
Proof.
  apply (@bot_rule_ascii ascii_runtime sample_spambot). reflexivity.
Defined.

(** * What a fired rule does to the verdict *)

Lemma total_fired_le (f : rule -> bool) (r : rule) (l : list rule) :
  NoDup l -> In r l -> f r = true ->
  (total f l <= gain l + Z.min 0 (delta r))%Z.
Proof.
  intros Hnd Hin Hf.
  induction Hnd as [| x l Hx Hnd IH]; [destruct Hin |].
  cbn [total gain]. destruct (rule_eqb_spec x r) as [-> | Hne].
  - rewrite Hf. pose proof (total_le_gain f l). lia.
  - destruct Hin as [-> | Hin]; [congruence |].
    specialize (IH Hin). destruct (f x); lia.
Qed.

(** The score before the clamp under a fired rule. *)
Lemma raw_score_cap (R : Runtime) (c : Comment) (r : rule) :
  fires R c r = true -> (raw_score R c <= 70 + Z.min 0 (delta r))%Z.
Proof.
  intros Hf. rewrite raw_score_table.
  pose proof (@total_fired_le (fires R c) r all_rules all_rules_NoDup
                (all_rules_complete r) Hf) as H.
  change (gain all_rules) with 10%Z in H. lia.
Qed.

(** X26: a rule that fired caps the score: the score is at most 70 plus the
    rule's adjustment when that is negative.  A comment with a link scores
    at most 35, one with a call to subscribe at most 40. *)
Theorem fired_rule_caps_score (R : Runtime) (c : Comment) (r : rule) :
  fires R c r = true ->
  (r_score (analyze_comment R c) <= 70 + Z.min 0 (delta r))%Z.
Proof.
  intros Hf. rewrite score_is_clamped_raw.
  pose proof (raw_score_cap R c r Hf) as H.
  assert (Hd : (-35 <= delta r)%Z) by (destruct r; cbn [delta]; lia).
  unfold clamp. lia.
Qed.

Lemma fired_rule_caps_score_witness :
  (r_score (analyze_comment ascii_runtime (promo_comment 5))
   <= 70 + Z.min 0 (delta rule_url))%Z.
Proof.
  apply (@fired_rule_caps_score ascii_runtime (promo_comment 5) rule_url).
  reflexivity.
Defined.

Lemma total_nonpos (f : rule -> bool) (l : list rule) :
  (forall r, In r l -> f r = true -> (delta r <= 0)%Z) ->
  (total f l <= 0)%Z.
Proof.
  induction l as [| x l IH]; intros Hneg; cbn [total]; [lia |].
  assert (Hl : (total f l <= 0)%Z)
    by (apply IH; intros r Hr; apply Hneg; now right).
  destruct (f x) eqn:Hx; [| lia].
  pose proof (Hneg x (or_introl eq_refl) Hx). lia.
Qed.

Lemma total_nonneg_none (f : rule -> bool) (l : list rule) :
  (forall r, In r l -> f r = true -> (delta r <= 0)%Z) ->
  (0 <= total f l)%Z ->
  forall r, In r l -> f r = true -> delta r = 0%Z.
Proof.
  induction l as [| x l IH]; intros Hneg Htot r Hin Hf; [destruct Hin |].
  cbn [total] in Htot.
  assert (Hrest : forall r', In r' l -> f r' = true -> (delta r' <= 0)%Z)
    by (intros r' Hr'; apply Hneg; now right).
  pose proof (total_nonpos f l Hrest) as Hl.
  assert (Hx : ((if f x then delta x else 0) <= 0)%Z).
  { destruct (f x) eqn:Hfx; [| lia].
    apply (Hneg x); [now left | exact Hfx]. }
  destruct Hin as [-> | Hin].
  - rewrite Hf in Htot, Hx. lia.
  - apply (IH Hrest); [lia | exact Hin | exact Hf].
Qed.

Lemma total_zero (f : rule -> bool) (l : list rule) :
  (forall r, In r l -> f r = true -> delta r = 0%Z) -> total f l = 0%Z.
Proof.
  induction l as [| x l IH]; intros Hl; cbn [total]; [reflexivity |].
  rewrite IH by (intros r Hr; apply Hl; now right).
  destruct (f x) eqn:Hx; [| reflexivity].
  rewrite (Hl x (or_introl eq_refl) Hx). reflexivity.
Qed.

Lemma real_means_60 (R : Runtime) (c : Comment) :
  r_verdict (analyze_comment R c) = real ->
  (60 <= r_score (analyze_comment R c))%Z.
Proof.
  change (r_verdict (analyze_comment R c))
    with (verdict_of (r_score (analyze_comment R c))).
  unfold verdict_of.
  destruct (Z.leb_spec 60 (r_score (analyze_comment R c))) as [H | H];
    [intros _; exact H |].
  destruct (Z.leb 40 _); [discriminate |].
  destruct (Z.leb 20 _); discriminate.
Qed.

(** X27: a comment is judged real only if none of the four heavy rules
    fired (link, very short or generic text, self-promotion, bot keyword);
    and with fewer than 25 likes only if no rule with a negative adjustment
    fired at all, the score then being exactly 60. *)
Theorem real_verdict_needs (R : Runtime) (c : Comment) :
  r_verdict (analyze_comment R c) = real ->
  (forall r, (delta r < -10)%Z -> fires R c r = false)
  /\ (fires R c rule_likes = false ->
      (forall r, (delta r < 0)%Z -> fires R c r = false)
      /\ r_score (analyze_comment R c) = 60%Z).
Proof.
  intros Hreal. apply real_means_60 in Hreal.
  assert (Hraw : (60 <= raw_score R c)%Z).
  { rewrite score_is_clamped_raw in Hreal. unfold clamp in Hreal. lia. }
  split.
  - intros r Hd. destruct (fires R c r) eqn:Hf; [| reflexivity].
    pose proof (raw_score_cap R c r Hf). lia.
  - intros Hlikes. rewrite raw_score_table in Hraw.
    assert (Hnone : forall r, In r all_rules -> fires R c r = true ->
                              delta r = 0%Z).
    { apply total_nonneg_none; [| lia].
      intros r _ Hf. destruct r; cbn [delta]; try lia. congruence. }
    split.
    + intros r Hd. destruct (fires R c r) eqn:Hf; [| reflexivity].
      pose proof (Hnone r (all_rules_complete r) Hf). lia.
    + rewrite score_is_clamped_raw, raw_score_table.
      rewrite (total_zero (fires R c) all_rules Hnone). reflexivity.
Qed.

Lemma real_verdict_needs_witness :
  (forall r, (delta r < -10)%Z ->
             fires ascii_runtime (user123_with_likes 30) r = false)
  /\ (fires ascii_runtime (user123_with_likes 30) rule_likes = false ->
      (forall r, (delta r < 0)%Z ->
                 fires ascii_runtime (user123_with_likes 30) r = false)
      /\ r_score (analyze_comment ascii_runtime (user123_with_likes 30))
         = 60%Z).
Proof.
  apply (@real_verdict_needs ascii_runtime (user123_with_likes 30)).
  reflexivity.
Defined.

Lemma lstrip_blank (R : Runtime) (s : str) :
  forallb (isspace R) s = true -> lstrip R s = [].
Proof.
  induction s as [| c t IH]; cbn [forallb lstrip]; [reflexivity |].
  intros H. apply andb_prop in H as [-> Ht]. now apply IH.
Qed.

(** X28: a text of whitespace only is analyzed as the empty text: the
    detector is not consulted, the language is "unknown" with its reason,
    and the verdict is never real, whatever the likes. *)
Theorem blank_text_never_real (R : Runtime) (c : Comment) :
  forallb (isspace R) (get_or (c_text c) []) = true ->
  let res := analyze_comment R c in
  r_text res = [] /\ r_language res = lit "unknown"
  /\ In msg_lang (r_reasons res) /\ r_verdict res <> real.
Proof.
  intros Hblank. cbv zeta.
  assert (Htext : strip R (get_or (c_text c) []) = []).
  { unfold strip. now rewrite (lstrip_blank R _ Hblank). }
  assert (Hshort : fires R c rule_short = true).
  { unfold fires. cbv zeta. cbn [trigger]. rewrite Htext. reflexivity. }
  assert (Hlang : fires R c rule_lang = true).
  { unfold fires. cbv zeta. cbn [trigger]. rewrite Htext. reflexivity. }
  repeat split.
  - unfold analyze_comment. cbv zeta. cbn [r_text]. exact Htext.
  - unfold analyze_comment. cbv zeta. cbn [r_language]. now rewrite Htext.
  - rewrite reasons_table. apply explain_In with (r := rule_lang);
      [exact Hlang | now left | apply all_rules_complete].
  - intros Hreal. apply real_means_60 in Hreal.
    pose proof (raw_score_cap R c rule_short Hshort) as Hcap.
    cbn [delta] in Hcap. rewrite score_is_clamped_raw in Hreal.
    unfold clamp in Hreal. lia.
Qed.

Lemma blank_text_never_real_witness :
  let res := analyze_comment ascii_runtime
               (mk_sample (lit "Ann") (lit "   ") [] 30 (lit "youtube")) in
  r_text res = [] /\ r_language res = lit "unknown"
  /\ In msg_lang (r_reasons res) /\ r_verdict res <> real.
Proof.
  apply (@blank_text_never_real ascii_runtime
           (mk_sample (lit "Ann") (lit "   ") [] 30 (lit "youtube"))).
  reflexivity.
Defined.

(** * The id taken from a URL *)

Lemma count_zero_iff (sep : char) (s : str) :
  count_class (N.eqb sep) s = 0 <-> ~ In sep s.
Proof.
  unfold count_class. induction s as [| c t IH]; cbn [filter In].
  - split; [intros _ [] | reflexivity].
  - destruct (N.eqb_spec sep c) as [-> | Hne]; cbn [length].
    + split; [discriminate | intros H; exfalso; apply H; now left].
    + rewrite IH. split; [intros H [Hc | Ht]; congruence | tauto].
Qed.

(** The last part of a split line is the line itself when it has no
    separator, and what follows its last separator otherwise. *)
Lemma split_on_last (sep : char) (s : str) :
  ~ In sep (last (split_on sep s) [])
  /\ ((~ In sep s /\ last (split_on sep s) [] = s)
      \/ exists pre, s = pre ++ sep :: last (split_on sep s) []).
Proof.
  induction s as [| c t [IHfree IH]]; cbn [split_on].
  - cbn [last]. split; [intros [] | left; split; [intros [] | reflexivity]].
  - pose proof (split_on_nonempty sep t) as Hne.
    pose proof (split_on_length sep t) as Hlen.
    destruct (N.eqb_spec c sep) as [-> | Hc].
    + destruct (split_on sep t) as [| p ps] eqn:Hs; [congruence |].
      change (last ([] :: p :: ps) []) with (last (p :: ps) (@nil char)).
      split; [exact IHfree | right].
      destruct IH as [[_ ->] | (pre & ->)].
      * now exists [].
      * exists (sep :: pre). reflexivity.
    + destruct (split_on sep t) as [| p ps] eqn:Hs; [congruence |].
      destruct ps as [| q ps].
      * cbn [last] in *. cbn [length] in Hlen.
        assert (Hfree : ~ In sep t)
          by (apply count_zero_iff; lia).
        destruct IH as [[_ ->] | (pre & Ht)].
        -- split; [| left; split; [| reflexivity]];
             intros [H | H]; congruence || contradiction.
        -- exfalso. apply Hfree. rewrite Ht. apply in_or_app.
           right. now left.
      * change (last ((c :: p) :: q :: ps) [])
          with (last (p :: q :: ps) (@nil char)).
        split; [exact IHfree | right].
        destruct IH as [[Hfree _] | (pre & ->)].
        -- apply count_zero_iff in Hfree. cbn [length] in Hlen. lia.
        -- exists (c :: pre). reflexivity.
Qed.

Lemma after_last_sep_unique (sep : char) (pre : str) :
  forall pre' a b,
    pre ++ sep :: a = pre' ++ sep :: b ->
    ~ In sep a -> ~ In sep b -> a = b.
Proof.
  induction pre as [| x pre IH]; intros [| y pre'] a b H Ha Hb;
    cbn [app] in H.
  - now injection H.
  - injection H as _ H. exfalso. apply Ha. rewrite H.
    apply in_or_app. right. now left.
  - injection H as _ H. exfalso. apply Hb. rewrite <- H.
    apply in_or_app. right. now left.
  - injection H as _ H. now apply (IH pre').
Qed.

(** X29: the id that [process_url] takes from a Facebook or LinkedIn URL is
    what follows the last "/" of the URL, when that is not empty; a URL
    without "/" or ending in "/" gives no id. *)
Theorem last_segment_spec (url : str) :
  (forall id,
     last_segment url = Some id
     <-> id <> [] /\ ~ In 47%N id /\ exists pre, url = pre ++ 47%N :: id)
  /\ (last_segment url = None
      <-> ~ In 47%N url \/ exists pre, url = pre ++ [47%N]).
Proof.
  destruct (split_on_last 47%N url) as [Hfree Hlast].
  assert (Hex : existsb (N.eqb 47) url = true <-> In 47%N url).
  { rewrite existsb_exists. split.
    - intros (x & Hx & Heq). apply N.eqb_eq in Heq. now subst x.
    - intros H. exists 47%N. split; [exact H | reflexivity]. }
  unfold last_segment.
  destruct (existsb (N.eqb 47) url) eqn:He.
  - assert (Hin : In 47%N url) by now apply Hex.
    destruct Hlast as [[Hno _] | (pre & Hurl)]; [contradiction |].
    destruct (last (split_on 47%N url) []) as [| c t] eqn:Hl.
    + split.
      * intros id. split; [discriminate |].
        intros (Hne & Hid & pre' & Hurl'). exfalso. apply Hne.
        rewrite Hurl in Hurl'. symmetry.
        exact (after_last_sep_unique 47%N pre pre' [] id Hurl'
                 (fun H => H) Hid).
      * split; [intros _; right; now exists pre | reflexivity].
    + split.
      * intros id. split.
        -- intros H. injection H as <-.
           split; [discriminate |]. split; [exact Hfree | now exists pre].
        -- intros (Hne & Hid & pre' & Hurl'). f_equal.
           rewrite Hurl in Hurl'.
           exact (after_last_sep_unique 47%N pre pre' (c :: t) id Hurl'
                    Hfree Hid).
      * split; [discriminate |].
        intros [Hno | (pre' & Hurl')]; [contradiction |].
        exfalso. rewrite Hurl in Hurl'.
        pose proof (after_last_sep_unique 47%N pre pre' (c :: t) [] Hurl'
                      Hfree (fun H => H)) as H.
        discriminate.
  - assert (Hno : ~ In 47%N url)
      by (intros H; apply Hex in H; discriminate).
    split.
    + intros id. split; [discriminate |].
      intros (_ & _ & pre & Hurl). exfalso. apply Hno. rewrite Hurl.
      apply in_or_app. right. now left.
    + split; [intros _; now left | reflexivity].
Qed.
